(** * repo2docker: the build orchestration pipeline of [repo2docker/app.py]

    A shallow embedding of [compose] and of the methods [fetch],
    [initialize], [push_image], [run_image] and [start] of the
    [Repo2Docker] application, together with the properties its
    specification states about them.

    The program talks to git (through [execute_cmd]), to the buildpack
    classes of [repo2docker.detectors], to the Docker SDK, to the clock and
    to the operating system.  Each of these collaborators is an interface
    (a type class below); the program itself is written in a state and
    exception monad whose state carries the trace of the calls made.

    Modelling choices.  A reading of [time.time()] is a rational number.  A
    progress record is a [dict] of JSON values without floating-point
    numbers.  A buildpack object has an identity, given at its creation.
    A container object caches the engine's report of the container until
    the next [reload()].  The status poll of [run_image] is run for a
    bounded number of rounds; a container still ['created'] after them
    makes the call [Hang]. *)

From Stdlib Require Import Ascii QArith Lqa DecimalString Sorted.
From stdpp Require Import gmap strings list fin_maps.

Local Open Scope string_scope.
Local Open Scope list_scope.
Set Warnings "-register-all".

(** ** Values *)

(** What [json.loads] returns for the progress records Docker streams
    (records without floating-point numbers). *)
Inductive json :=
| JNull
| JBool (b : bool)
| JInt (n : Z)
| JStr (s : string)
| JList (l : list json)
| JDict (kv : list (string * json)).

(** Python truth value: [None], [False], [0], [''], [[]] and [{}] are false. *)
Definition truthy (v : json) : bool :=
  match v with
  | JNull => false
  | JBool b => b
  | JInt n => negb (n =? 0)%Z
  | JStr s => negb (String.eqb s "")
  | JList l => match l with [] => false | _ => true end
  | JDict kv => match kv with [] => false | _ => true end
  end.

(** A progress record is a Python [dict] with string keys. *)
Abbreviation record := (gmap string json).

(** [key in d] *)
Definition has_key (k : string) (d : record) : bool :=
  match d !! k with Some _ => true | None => false end.

(** [str(n)] for a non-negative integer, and for an [int]. *)
Definition str_of_nat (n : nat) : string := NilZero.string_of_uint (Nat.to_uint n).
Definition str_of_Z (n : Z) : string := NilZero.string_of_int (Z.to_int n).

(** ['%s' % v] for a value that is a string or [None]. *)
Definition fmt_s (v : option string) : string :=
  match v with Some s => s | None => "None" end.

(** [needle in hay] on strings. *)
Fixpoint starts_with (p s : string) : bool :=
  match p, s with
  | EmptyString, _ => true
  | String a p', String b s' => if Ascii.eqb a b then starts_with p' s' else false
  | String _ _, EmptyString => false
  end.

Fixpoint includes (needle hay : string) : bool :=
  if starts_with needle hay then true
  else match hay with
       | EmptyString => false
       | String _ hay' => includes needle hay'
       end.

(** ** Exceptions and the monad *)

Inductive exn :=
| RuntimeError (msg : string)
| KeyError (key : string)
| TypeError (msg : string)
| IndexError
| UnboundLocalError (var : string)
| SystemExit (code : Z)        (* raised by [sys.exit(code)] *)
| StreamError (msg : string).  (* raised by the container's log stream *)

(** How a call ends: it returns, it raises, or it never returns ([Hang]:
    the only loop of the program that may spin for ever is the status poll
    of [run_image]). *)
Inductive outcome (A : Type) :=
| Ret (a : A)
| Exc (e : exn)
| Hang.
Arguments Ret {A} a.
Arguments Exc {A} e.
Arguments Hang {A}.

Inductive level := DEBUG | INFO | ERROR.

(** The state of a container as the engine reports it:
    [attrs['State']['Status']] and [attrs['State']['ExitCode']]. *)
Record attrs := Attrs { status : string; ExitCode : Z }.

(** ** The application object *)

(** The traits and attributes of a [Repo2Docker] instance.  [Mixin] is the
    type of the buildpack classes a chain lists. *)
Record Repo2Docker (Mixin : Type) := App {
  git_workdir : string;
  buildpacks : list (list Mixin);
  default_buildpack : list Mixin;
  repo_type : string;
  repo : string;
  ref : option string;
  cleanup_checkout : bool;
  output_image_spec : string;
  push : bool;
  run : bool;
  json_logs : bool;
  build : bool;
  run_cmd : list string
}.
Arguments App {Mixin}.
Arguments git_workdir {Mixin}.
Arguments buildpacks {Mixin}.
Arguments default_buildpack {Mixin}.
Arguments repo_type {Mixin}.
Arguments repo {Mixin}.
Arguments ref {Mixin}.
Arguments cleanup_checkout {Mixin}.
Arguments output_image_spec {Mixin}.
Arguments push {Mixin}.
Arguments run {Mixin}.
Arguments json_logs {Mixin}.
Arguments build {Mixin}.
Arguments run_cmd {Mixin}.

(** What [get_argparser().parse_args()] returns. *)
Record Args := MkArgs {
  arg_config : string;
  arg_json_logs : bool;
  arg_repo : string;
  arg_image_name : option string;
  arg_ref : option string;
  arg_debug : bool;
  arg_build : bool;
  arg_cmd : list string;
  arg_run : bool;
  arg_clean : bool;
  arg_push : bool
}.

(** ** The collaborators *)

(** [repo2docker.detectors]: the buildpack classes.  [bp_init m parent] is
    the constructor call [m(parent=parent)]; [detect] looks at the working
    tree of the current directory; [bp_build bp tag] is the sequence of
    records [bp.build(tag)] yields. *)
Class Detectors (Mixin : Type) := {
  BuildPack : Type;
  Tree : Type;
  bp_init : Mixin -> option (Repo2Docker Mixin) -> BuildPack;
  compose_with : BuildPack -> BuildPack -> BuildPack;
  detect : BuildPack -> Tree -> bool;
  render : BuildPack -> string;
  name : BuildPack -> string;
  bp_build : BuildPack -> string -> list record
}.

(** The operating system, the clock, [uuid], [escapism] and
    [utils.execute_cmd].  [execute_cmd cmd cwd capture] gives the lines the
    command prints and whether it succeeded ([false]: the generator ends by
    raising [CalledProcessError]). *)
Class Host (Tree : Type) := {
  path_exists : string -> bool;
  working_tree : string -> Tree;
  uuid4 : string;
  time_time : nat -> Q;
  bound_port : nat -> Z;
  escape_lower : string -> string;
  execute_cmd : list (option string) -> option string -> bool -> list string * bool
}.

(** The Docker SDK.  [push_stream tag] is the decoded sequence of lines of
    [client.push(tag, stream=True)].  A container object caches the engine's
    report: [inspect k] is what the engine reports at the [k]-th inspection
    of the container (the one [containers.run] returns, then one per
    [reload()]); [log_stream] is the lines of [logs(stream=True)] and the
    exception that ends the stream, if any; [after_kill] is what the engine
    reports of the container once a kill has been carried out. *)
Class Docker := {
  push_stream : string -> list record;
  inspect : nat -> attrs;
  log_stream : list string * option exn;
  after_kill : attrs
}.

(** * The program *)

Section Program.
Context {Mixin : Type} {D : Detectors Mixin} {W : Host Tree} {K : Docker}.

(** A buildpack instance: a Python object, with its identity. *)
Record obj := Obj { oid : nat; val : BuildPack }.

(** What is handed to a logger call as its message. *)
Inductive message :=
| MsgStr (s : string)
| MsgJson (v : json)
| MsgDumps (l : record).       (* [json.dumps(l)] *)

(** The calls the program makes on its collaborators, in order. *)
Inductive event :=
| EvLog (lv : level) (msg : message) (phase : string)
| EvProgress (layers : list (json * json))  (* ['Pushing image'] with [progress=layers] *)
| EvExec (cmd : list (option string)) (cwd : option string)
| EvNew (m : Mixin) (o : obj)
| EvComposeWith (a b r : obj)
| EvDetect (bp : obj) (r : bool)
| EvRender (bp : obj)
| EvBuild (bp : obj) (tag : string)
| EvBuildRecord (l : record)
| EvChdir (path : string)
| EvRmtree (path : string)
| EvPush (tag : string)
| EvPushRecord (l : record)
| EvTime (t : Q)
| EvFreePort (p : Z)
| EvRun (image : string) (ports : gmap string string) (command : list string)
| EvSleep
| EvReload (a : attrs)
| EvLogs
| EvKill
| EvRemove.

Record state := State {
  next_oid : nat;        (* objects allocated so far *)
  ticks : nat;           (* calls of [time.time()] so far *)
  probes : nat;          (* calls of [_get_free_port] so far *)
  inspections : nat;     (* inspections of the container so far *)
  cwd : string;          (* the current directory *)
  trace : list event
}.

Definition M (A : Type) : Type := state -> outcome A * state.

Definition ret {A} (a : A) : M A := fun s => (Ret a, s).
Definition raise {A} (e : exn) : M A := fun s => (Exc e, s).
Definition hang {A} : M A := fun s => (Hang, s).
Definition bind {A B} (m : M A) (k : A -> M B) : M B := fun s =>
  match m s with
  | (Ret a, s') => k a s'
  | (Exc e, s') => (Exc e, s')
  | (Hang, s') => (Hang, s')
  end.

(** [try: body finally: fin].  An exception of [fin] replaces the one in
    flight. *)
Definition try_finally {A} (body : M A) (fin : M unit) : M A := fun s =>
  match body s with
  | (Hang, s') => (Hang, s')
  | (r, s') =>
      match fin s' with
      | (Ret _, s'') => (r, s'')
      | (Exc e, s'') => (Exc e, s'')
      | (Hang, s'') => (Hang, s'')
      end
  end.

(** The state once the calls [evs] have been made. *)
Definition logged (s : state) (evs : list event) : state :=
  State (next_oid s) (ticks s) (probes s) (inspections s) (cwd s) (trace s ++ evs).

Definition emit (e : event) : M unit := fun s => (Ret tt, logged s [e]).

Definition gets {A} (f : state -> A) : M A := fun s => (Ret (f s), s).

Definition sys_exit {A} (code : Z) : M A := raise (SystemExit code).
End Program.

Notation "'do' x <- m ; k" := (bind m (fun x => k))
  (at level 10, x name, m at level 100, k at level 200,
   format "'[v' 'do'  x  <-  m ; '/' k ']'").
Notation "m ;; k" := (bind m (fun _ => k))
  (at level 100, k at level 200, right associativity).

Definition nl : string := String "010"%char EmptyString.   (* ['\n'] *)
Definition cr : string := String "013"%char EmptyString.   (* ['\r'] *)

(** [os.path.join(a, b)] on POSIX paths. *)
Fixpoint ends_with_slash (a : string) : bool :=
  match a with
  | EmptyString => false
  | String c EmptyString => Ascii.eqb c "/"%char
  | String _ a' => ends_with_slash a'
  end.

Definition path_join (a b : string) : string :=
  if starts_with "/" b then b
  else if String.eqb a "" || ends_with_slash a then a ++ b
  else a ++ "/" ++ b.

(** [int(t)]: truncation towards zero. *)
Definition int_of_Q (t : Q) : Z := Z.quot (Qnum t) (Z.pos (Qden t)).

(** ** [compose] and the selection loop of [start] *)

Section Compose.
Context {Mixin : Type} {D : Detectors Mixin}.

(** Creating an object gives it the next free identity. *)
Definition alloc (v : BuildPack) : M obj := fun s =>
  (Ret (Obj (next_oid s) v),
   State (S (next_oid s)) (ticks s) (probes s) (inspections s) (cwd s) (trace s)).

(** [buildpack(parent=parent)] *)
Definition new (m : Mixin) (parent : option (Repo2Docker Mixin)) : M obj :=
  do o <- alloc (bp_init m parent);
  emit (EvNew m o);; ret o.

(** [image.compose_with(other)]: the result is a new buildpack object. *)
Definition call_compose_with (image other : obj) : M obj :=
  do r <- alloc (compose_with (val image) (val other));
  emit (EvComposeWith image other r);; ret r.

(** The [for buildpack in buildpacks[1:]] loop of [compose]. *)
Fixpoint compose_loop (image : obj) (rest : list Mixin)
    (parent : option (Repo2Docker Mixin)) : M obj :=
  match rest with
  | [] => ret image
  | buildpack :: rest' =>
      do other <- new buildpack parent;
      do image' <- call_compose_with image other;
      compose_loop image' rest' parent
  end.

Definition compose (buildpacks : list Mixin)
    (parent : option (Repo2Docker Mixin)) : M obj :=
  match buildpacks with
  | [] => raise IndexError                 (* [buildpacks[0]] *)
  | first :: rest =>
      do image <- new first parent;
      compose_loop image rest parent
  end.
End Compose.

Section Pipeline.
Context {Mixin : Type} {D : Detectors Mixin} {W : Host Tree} {K : Docker}.

Definition log (lv : level) (msg : message) (phase : string) : M unit :=
  emit (EvLog lv msg phase).

(** [bp.detect()], on the working tree of the current directory. *)
Definition call_detect (bp : obj) : M bool :=
  do here <- gets cwd;
  let r := detect (val bp) (working_tree here) in
  emit (EvDetect bp r);; ret r.

(** The [for bp_spec in self.buildpacks] loop of [start].  It returns the
    picked buildpack and the last binding of the loop variable [bp]
    ([None] while [bp] is unbound). *)
Fixpoint select_loop (catalog : list (list Mixin)) (self : Repo2Docker Mixin)
    (picked_buildpack : obj) (bp : option obj) : M (obj * option obj) :=
  match catalog with
  | [] => ret (picked_buildpack, bp)
  | bp_spec :: catalog' =>
      do b <- compose bp_spec (Some self);
      do found <- call_detect b;
      if found then ret (b, Some b)
      else select_loop catalog' self picked_buildpack (Some b)
  end.

(** Lines 368 to 374 of [start]. *)
Definition select (self : Repo2Docker Mixin) : M (obj * option obj) :=
  do picked_buildpack <- compose (default_buildpack self) (Some self);
  select_loop (buildpacks self) self picked_buildpack None.

(** ** [fetch] *)

Fixpoint log_lines (lv : level) (lines : list string) (phase : string) : M unit :=
  match lines with
  | [] => ret tt
  | line :: lines' => log lv (MsgStr line) phase;; log_lines lv lines' phase
  end.

(** The arguments of a command are strings.  A command that holds [None]
    (the revision, when [--ref] is not given) starts no process: the call
    of [execute_cmd] raises [TypeError] when the loop over its lines
    begins. *)
Definition well_formed (cmd : list (option string)) : bool :=
  forallb (fun a => match a with Some _ => true | None => false end) cmd.

Definition bad_argument : exn :=
  TypeError "expected str, bytes or os.PathLike object, not NoneType".

(** [for line in execute_cmd(cmd, capture=.., cwd=..): self.log.<lv>(line, ..)]
    The result is [false] when the loop ends by [CalledProcessError].  A
    [TypeError] is not caught by the [except subprocess.CalledProcessError]
    clauses of [fetch]: it ends the loop and goes up to the caller. *)
Definition run_logged (cmd : list (option string)) (dir : option string)
    (capture : bool) (lv : level) : M bool :=
  emit (EvExec cmd dir);;
  if well_formed cmd then
    let out := execute_cmd cmd dir capture in
    log_lines lv (fst out) "fetching";;
    ret (snd out)
  else raise bad_argument.

Definition clone_command (depth : option nat) (url checkout_path : string)
    : list (option string) :=
  match depth with
  | Some d => [Some "git"; Some "clone"; Some "--depth"; Some (str_of_nat d);
               Some url; Some checkout_path]
  | None => [Some "git"; Some "clone"; Some url; Some checkout_path]
  end.
Definition unshallow_command : list (option string) :=
  [Some "git"; Some "fetch"; Some "--unshallow"].
Definition contains_command (ref : option string) : list (option string) :=
  [Some "git"; Some "cat-file"; Some "-t"; ref].
Definition checkout_command (ref : option string) : list (option string) :=
  [Some "git"; Some "reset"; Some "--hard"; ref].

Definition _clone (self : Repo2Docker Mixin) (url checkout_path : string)
    (depth : option nat) : M unit :=
  do ok <- run_logged (clone_command depth url checkout_path) None (json_logs self) INFO;
  if ok then ret tt
  else log ERROR (MsgStr "Failed to clone repository!") "failed";;
       raise (RuntimeError ("Failed to clone " ++ url ++ ".")).

Definition _unshallow (self : Repo2Docker Mixin) (url checkout_path : string) : M unit :=
  do ok <- run_logged unshallow_command (Some checkout_path) (json_logs self) INFO;
  if ok then ret tt
  else log ERROR (MsgStr "Failed to unshallow repository!") "failed";;
       raise (RuntimeError ("Failed to create a full clone of " ++ url ++ ".")).

(** With [ref = None] the probe raises [TypeError] (line 127 catches
    [CalledProcessError] only) and [fetch] ends there. *)
Definition _contains (self : Repo2Docker Mixin) (checkout_path : string)
    (ref : option string) : M bool :=
  run_logged (contains_command ref) (Some checkout_path) (json_logs self) DEBUG.

Definition _checkout (self : Repo2Docker Mixin) (url checkout_path : string)
    (ref : option string) : M unit :=
  do ok <- run_logged (checkout_command ref) (Some checkout_path) (json_logs self) INFO;
  if ok then ret tt
  else log ERROR (MsgStr ("Failed to check out ref " ++ fmt_s ref)) "failed";;
       raise (RuntimeError ("Failed to checkout reference " ++ fmt_s ref
                            ++ " for " ++ url ++ ".")).

Definition fetch (self : Repo2Docker Mixin) (url : string) (ref : option string)
    (checkout_path : string) : M unit :=
  _clone self url checkout_path (Some 50%nat);;
  do present <- _contains self checkout_path ref;
  (if negb present then _unshallow self url checkout_path else ret tt);;
  _checkout self url checkout_path ref.

(** ** The build loop of [start] (lines 380 to 389) *)

Fixpoint build_loop (records : list record) : M unit :=
  match records with
  | [] => ret tt
  | l :: records' =>
      emit (EvBuildRecord l);;
      match l !! "stream" with
      | Some text => log INFO (MsgJson text) "building";; build_loop records'
      | None =>
          match l !! "error" with
          | Some err => log INFO (MsgJson err) "failure";; sys_exit 1
          | None =>
              if has_key "status" l
              then log INFO (MsgStr ("Fetching base image..." ++ cr)) "building";;
                   build_loop records'
              else log INFO (MsgDumps l) "building";; build_loop records'
          end
      end
  end.

(** ** [push_image] *)

(** [time.time()] *)
Definition time_now : M Q := fun s =>
  let t := time_time (ticks s) in
  (Ret t, State (next_oid s) (S (ticks s)) (probes s) (inspections s) (cwd s)
                (trace s ++ [EvTime t])).

(** [d[k]] on a record: [KeyError] when the key is missing. *)
Definition getitem (d : record) (k : string) : M json :=
  match d !! k with
  | Some v => ret v
  | None => raise (KeyError k)
  end.

(** The [layers] dict, in insertion order.  Keys are compared as Python
    compares them ([True == 1]); lists and dicts are not hashable. *)
Definition hashable (k : json) : bool :=
  match k with
  | JList _ | JDict _ => false
  | _ => true
  end.

Definition key_eqb (a b : json) : bool :=
  match a, b with
  | JNull, JNull => true
  | JBool x, JBool y => Bool.eqb x y
  | JBool x, JInt n | JInt n, JBool x => (n =? (if x then 1 else 0))%Z
  | JInt n, JInt m => (n =? m)%Z
  | JStr x, JStr y => String.eqb x y
  | _, _ => false
  end.

Fixpoint dict_set (layers : list (json * json)) (k v : json) : list (json * json) :=
  match layers with
  | [] => [(k, v)]
  | (k', v') :: layers' =>
      if key_eqb k' k then (k', v) :: layers'
      else (k', v') :: dict_set layers' k v
  end.

(** [layers[k] = v] *)
Definition setitem (layers : list (json * json)) (k v : json) : M (list (json * json)) :=
  if hashable k then ret (dict_set layers k v)
  else raise (TypeError "unhashable type").

(** The value stored for a record that has an ['id']: the right-hand side
    of the assignment at line 306 or 308. *)
Definition layer_value (progress : record) : M json :=
  match progress !! "progressDetail" with
  | Some detail => if truthy detail then ret detail else getitem progress "status"
  | None => getitem progress "status"
  end.

Fixpoint push_loop (lines : list record) (layers : list (json * json))
    (last_emit_time : Q) : M unit :=
  match lines with
  | [] => ret tt
  | progress :: lines' =>
      emit (EvPushRecord progress);;
      match progress !! "error" with
      | Some err => log ERROR (MsgJson err) "failed";; sys_exit 1
      | None =>
          match progress !! "id" with
          | None => push_loop lines' layers last_emit_time
          | Some id =>
              do v <- layer_value progress;
              do layers' <- setitem layers id v;
              do now <- time_now;
              if negb (Qle_bool (now - last_emit_time) (3 # 2))
              then emit (EvProgress layers');;
                   do t <- time_now;
                   push_loop lines' layers' t
              else push_loop lines' layers' last_emit_time
          end
      end
  end.

Definition push_image (self : Repo2Docker Mixin) : M unit :=
  do last_emit_time <- time_now;
  emit (EvPush (output_image_spec self));;
  push_loop (push_stream (output_image_spec self)) [] last_emit_time.

(** ** [run_image] *)

Definition _get_free_port : M Z := fun s =>
  let port := bound_port (probes s) in
  (Ret port, State (next_oid s) (ticks s) (S (probes s)) (inspections s) (cwd s)
                   (trace s ++ [EvFreePort port])).

(** The engine's report at the next inspection of the container. *)
Definition next_inspection : M attrs := fun s =>
  (Ret (inspect (inspections s)),
   State (next_oid s) (ticks s) (probes s) (S (inspections s)) (cwd s) (trace s)).

(** [client.containers.run(image, ports=.., detach=True, command=..)]:
    the container object, that is, the [attrs] it caches. *)
Definition containers_run (image : string) (ports : gmap string string)
    (command : list string) : M attrs :=
  emit (EvRun image ports command);;
  next_inspection.

(** [container.reload()]: the cache is replaced by a new report. *)
Definition reload : M attrs :=
  do a <- next_inspection;
  emit (EvReload a);; ret a.

(** [while container.status == 'created': time.sleep(0.5); container.reload()],
    for at most [fuel] rounds. *)
Fixpoint wait_created (fuel : nat) (container : attrs) : M attrs :=
  if String.eqb (status container) "created" then
    match fuel with
    | O => hang
    | S fuel' => emit EvSleep;; do container' <- reload; wait_created fuel' container'
    end
  else ret container.

(** [for line in container.logs(stream=True): self.log.info(line.decode(..), ..)] *)
Definition stream_logs : M unit :=
  emit EvLogs;;
  log_lines INFO (fst log_stream) "running";;
  match snd log_stream with
  | Some e => raise e
  | None => ret tt
  end.

(** The [finally] block of [run_image].  The exit code is read from the
    report the [reload] at its start has cached. *)
Definition cleanup : M unit :=
  do container <- reload;
  (if String.eqb (status container) "running"
   then log INFO (MsgStr ("Stopping container..." ++ nl)) "running";; emit EvKill
   else ret tt);;
  let exit_code := ExitCode container in
  emit EvRemove;;
  sys_exit exit_code.

Definition run_image (fuel : nat) (self : Repo2Docker Mixin) : M unit :=
  do port <- _get_free_port;
  do config <-
    (match run_cmd self with
     | [] =>
         do p <- _get_free_port;
         let port := str_of_Z p in
         ret (["jupyter"; "notebook"; "--ip"; "0.0.0.0"; "--port"; port],
              ({[ (port ++ "/tcp")%string := port ]} : gmap string string))
     | _ :: _ => ret (run_cmd self, (∅ : gmap string string))
     end);
  do container <- containers_run (output_image_spec self) (snd config) (fst config);
  do container' <- wait_created fuel container;
  try_finally stream_logs cleanup.

(** ** [initialize]

    [self] holds the configurable traits; the logger set-up and the
    loading of the configuration file leave the attributes modelled here
    alone. *)
Definition default_image_spec (r : string) : M string :=
  do t <- time_now;
  ret ("r2d" ++ escape_lower r ++ str_of_Z (int_of_Q t))%string.

Definition initialize (self : Repo2Docker Mixin) (args : Args) : M (Repo2Docker Mixin) :=
  let is_local := path_exists (arg_repo args) in
  do spec <-
    (match arg_image_name args with
     | Some image_name =>
         if String.eqb image_name "" then default_image_spec (arg_repo args)
         else ret image_name
     | None => default_image_spec (arg_repo args)
     end);
  ret {| git_workdir := git_workdir self;
         buildpacks := buildpacks self;
         default_buildpack := default_buildpack self;
         repo_type := if is_local then "local" else "remote";
         repo := arg_repo args;
         ref := if is_local then None else arg_ref args;
         cleanup_checkout := if is_local then false else arg_clean args;
         output_image_spec := spec;
         push := if arg_build args then arg_push args else false;
         run := if arg_build args then arg_run args else false;
         json_logs := arg_json_logs args;
         build := arg_build args;
         run_cmd := arg_cmd args |}.

(** ** [start] *)

(** [os.chdir(path)] *)
Definition chdir (path : string) : M unit := fun s =>
  (Ret tt, State (next_oid s) (ticks s) (probes s) (inspections s) path
                 (trace s ++ [EvChdir path])).

(** [shutil.rmtree(path, ignore_errors=True)] *)
Definition rmtree (path : string) : M unit := emit (EvRmtree path).

Definition call_render (bp : obj) : M string :=
  emit (EvRender bp);; ret (render (val bp)).

Definition build_stage (self : Repo2Docker Mixin) (picked_buildpack : obj)
    (bp : option obj) : M unit :=
  do bp_name <-
    (match bp with
     | Some b => ret (name (val b))
     | None => raise (UnboundLocalError "bp")
     end);
  log INFO (MsgStr ("Using " ++ bp_name ++ " builder" ++ nl)) "building";;
  emit (EvBuild picked_buildpack (output_image_spec self));;
  build_loop (bp_build (val picked_buildpack) (output_image_spec self)).

Definition start (fuel : nat) (self : Repo2Docker Mixin) : M unit :=
  do checkout_path <-
    (if String.eqb (repo_type self) "local" then ret (repo self)
     else
       let checkout_path := path_join (git_workdir self) uuid4 in
       fetch self (repo self) (ref self) checkout_path;;
       ret checkout_path);
  chdir checkout_path;;
  do selected <- select self;
  let picked_buildpack := fst selected in
  let bp := snd selected in
  do description <- call_render picked_buildpack;
  log DEBUG (MsgStr description) "building";;
  (if build self then build_stage self picked_buildpack bp else ret tt);;
  (if cleanup_checkout self then rmtree checkout_path else ret tt);;
  (if push self then push_image self else ret tt);;
  (if run self then run_image fuel self else ret tt).

(** [initialize] then [start], from a fresh process. *)
Definition init_state : state := State 0 0 0 0 "." [].

Definition main (fuel : nat) (traits : Repo2Docker Mixin) (args : Args)
    : outcome unit * state :=
  (do self <- initialize traits args; start fuel self) init_state.
End Pipeline.

(** * Reading a trace *)

Section Observations.
Context {Mixin : Type} {D : Detectors Mixin} {W : Host Tree}.

(** The classes instantiated, in order. *)
Definition instantiated (evs : list event) : list Mixin :=
  omap (fun e => match e with EvNew m _ => Some m | _ => None end) evs.

(** The [detect()] calls: the buildpack asked and its answer. *)
Definition detect_calls (evs : list event) : list (BuildPack * bool) :=
  omap (fun e => match e with EvDetect bp r => Some (val bp, r) | _ => None end) evs.

(** The value [compose] builds from a chain: the first class instantiated,
    then extended from left to right. *)
Definition extend (parent : option (Repo2Docker Mixin)) (image : BuildPack)
    (m : Mixin) : BuildPack :=
  compose_with image (bp_init m parent).

Definition composed (parent : option (Repo2Docker Mixin)) (chain : list Mixin)
    : option BuildPack :=
  match chain with
  | [] => None
  | first :: rest => Some (fold_left (extend parent) rest (bp_init first parent))
  end.

(** Whether the buildpack composed from a chain detects the tree. *)
Definition matches (parent : option (Repo2Docker Mixin)) (tree : Tree)
    (chain : list Mixin) : bool :=
  match composed parent chain with
  | Some bp => detect bp tree
  | None => false
  end.

(** The entries of a catalog up to and including the first that matches. *)
Fixpoint tried (parent : option (Repo2Docker Mixin)) (tree : Tree)
    (catalog : list (list Mixin)) : list (list Mixin) :=
  match catalog with
  | [] => []
  | chain :: catalog' =>
      chain :: (if matches parent tree chain then [] else tried parent tree catalog')
  end.

(** The calls of [execute_cmd]: the command and its directory.  (A call
    whose command holds [None] is a call too; it raises and starts no
    process.) *)
Definition execs (evs : list event) : list (list (option string) * option string) :=
  omap (fun e => match e with EvExec cmd dir => Some (cmd, dir) | _ => None end) evs.

(** The records taken from the build stream. *)
Definition consumed (evs : list event) : list record :=
  omap (fun e => match e with EvBuildRecord l => Some l | _ => None end) evs.

(** A build record the loop of [start] treats as an error: it has an
    ['error'] key and no ['stream'] key. *)
Definition halts_build (l : record) : bool :=
  has_key "error" l && negb (has_key "stream" l).

(** The clock readings at which the push progress was emitted: for each
    [EvProgress], the latest reading of [time.time()] before it ([seen] is
    the latest reading so far). *)
Fixpoint emission_times (seen : option Q) (evs : list event) : list Q :=
  match evs with
  | [] => []
  | EvTime t :: evs' => emission_times (Some t) evs'
  | EvProgress _ :: evs' =>
      match seen with
      | Some t => t :: emission_times seen evs'
      | None => emission_times seen evs'
      end
  | _ :: evs' => emission_times seen evs'
  end.

(** Two emissions are more than 1.5 seconds apart. *)
Definition apart (t t' : Q) : Prop := (t + (3 # 2) < t')%Q.

(** The emissions that fall in the window of 1.5 seconds starting at [a]. *)
Definition in_window (a : Q) (times : list Q) : list Q :=
  List.filter (fun t => Qle_bool a t && Qle_bool t (a + (3 # 2))) times.

(** The containers launched: image, port mapping and command. *)
Definition runs (evs : list event) : list (string * gmap string string * list string) :=
  omap (fun e => match e with
                 | EvRun image ports command => Some (image, ports, command)
                 | _ => None
                 end) evs.

(** The ports [_get_free_port] has handed out. *)
Definition free_ports (evs : list event) : list Z :=
  omap (fun e => match e with EvFreePort p => Some p | _ => None end) evs.

(** The calls made while a launched container is supervised. *)
Definition supervises (e : event) : Prop :=
  match e with
  | EvSleep | EvReload _ | EvLogs | EvLog _ _ _ | EvKill | EvRemove => True
  | _ => False
  end.

(** The calls of the stages that work on the checkout (fetch, selection,
    build), and those of the stages that work on the image (publish, run).
    Logging and clock readings belong to both; [rmtree] to neither. *)
Definition upstream (e : event) : Prop :=
  match e with
  | EvExec _ _ | EvNew _ _ | EvComposeWith _ _ _ | EvDetect _ _ | EvRender _
  | EvBuild _ _ | EvBuildRecord _ | EvChdir _ | EvLog _ _ _ | EvTime _ => True
  | _ => False
  end.

Definition downstream (e : event) : Prop :=
  match e with
  | EvPush _ | EvPushRecord _ | EvProgress _ | EvFreePort _ | EvRun _ _ _
  | EvSleep | EvReload _ | EvLogs | EvKill | EvRemove | EvLog _ _ _ | EvTime _ => True
  | _ => False
  end.

(** What [detect()] is asked for a chain, and its answer. *)
Definition asked (parent : option (Repo2Docker Mixin)) (tree : Tree)
    (chain : list Mixin) : option (BuildPack * bool) :=
  match composed parent chain with
  | Some bp => Some (bp, detect bp tree)
  | None => None
  end.

(** The first entry of a catalog that matches. *)
Fixpoint first_match (parent : option (Repo2Docker Mixin)) (tree : Tree)
    (catalog : list (list Mixin)) : option (list Mixin) :=
  match catalog with
  | [] => None
  | chain :: catalog' =>
      if matches parent tree chain then Some chain
      else first_match parent tree catalog'
  end.

(** In a list of [detect] calls, nothing follows an answer [true]. *)
Definition stops_at_first_true (calls : list (BuildPack * bool)) : Prop :=
  forall pre call post, calls = pre ++ call :: post -> call.2 = true -> post = [].

(** The log calls for the lines a command prints. *)
Definition line_events (lv : level) (phase : string) (lines : list string) : list event :=
  map (fun line => EvLog lv (MsgStr line) phase) lines.

(** The calls of one [execute_cmd] loop: the command, then its lines. *)
Definition exec_events (cmd : list (option string)) (dir : option string)
    (capture : bool) (lv : level) : list event :=
  EvExec cmd dir :: line_events lv "fetching" (execute_cmd cmd dir capture).1.

(** The error logged when a fetch step fails. *)
Definition failed (text : string) : event := EvLog ERROR (MsgStr text) "failed".


(** What a run of [compose] leaves behind: a fresh object of the expected
    value, the classes instantiated in chain order, no [detect] call. *)
Definition composes (parent : option (Repo2Docker Mixin)) (chain : list Mixin)
    (v : BuildPack) (s : state) (r : obj) (s' : state) : Prop :=
  val r = v /\
  (next_oid s <= oid r < next_oid s')%nat /\
  ticks s' = ticks s /\ probes s' = probes s /\
  inspections s' = inspections s /\ cwd s' = cwd s /\
  exists evs, trace s' = trace s ++ evs /\
              instantiated evs = chain /\ detect_calls evs = [].

(** The emissions of a run of the push loop: more than 1.5 seconds after
    [last] and pairwise more than 1.5 seconds apart. *)
Definition throttled (last : Q) (evs : list event) : Prop :=
  forall seen,
    Forall (fun t => apart last t) (emission_times seen evs) /\
    StronglySorted apart (emission_times seen evs).

(** Every call a computation makes satisfies [P]. *)
Definition emits {A} (P : event -> Prop) (m : M A) : Prop :=
  forall s, exists evs, trace (m s).2 = trace s ++ evs /\ Forall P evs.

(** A computation whose calls come in three phases: upstream calls, then
    at most one removal of [path] (only if [c] holds), then downstream
    calls. *)
Definition phased {A} (c : bool) (path : string) (m : M A) : Prop :=
  forall s, exists pre mid post,
    trace (m s).2 = trace s ++ pre ++ mid ++ post /\
    Forall upstream pre /\ Forall downstream post /\
    (mid = [] \/ (mid = [EvRmtree path] /\ c = true)).
End Observations.

Section EngineObservations.
Context {Mixin : Type} {D : Detectors Mixin} {K : Docker}.

(** The state of the container in the engine at the end of a trace, as far
    as the trace tells: the report of the last [reload], or [after_kill]
    once a kill has been issued after it. *)
Fixpoint engine_state (known : option attrs) (evs : list event) : option attrs :=
  match evs with
  | [] => known
  | EvReload a :: evs' => engine_state (Some a) evs'
  | EvKill :: evs' => engine_state (Some after_kill) evs'
  | _ :: evs' => engine_state known evs'
  end.
End EngineObservations.

(** * More readings of a trace *)

Section MoreObservations.
Context {Mixin : Type} {D : Detectors Mixin} {W : Host Tree}.

(** The messages logged, with level and phase (the progress snapshots of
    [push_image] apart: they are the [EvProgress] calls, read by
    [snapshots]). *)
Definition logs (evs : list event) : list (level * message * string) :=
  omap (fun e => match e with EvLog lv msg phase => Some (lv, msg, phase) | _ => None end) evs.

(** The records taken from the push stream. *)
Definition pushed (evs : list event) : list record :=
  omap (fun e => match e with EvPushRecord l => Some l | _ => None end) evs.

(** The layer snapshots emitted, each with the records taken from the push
    stream before it ([taken]: those taken before [evs]). *)
Fixpoint snapshots (taken : list record) (evs : list event)
    : list (list record * list (json * json)) :=
  match evs with
  | [] => []
  | EvPushRecord l :: evs' => snapshots (taken ++ [l]) evs'
  | EvProgress layers :: evs' => (taken, layers) :: snapshots taken evs'
  | _ :: evs' => snapshots taken evs'
  end.

(** The layer ids of a list of records, each once, in the order in which
    they first appear; ids are compared as dict keys are. *)
Definition seen_once (acc : list json) (id : json) : list json :=
  if existsb (fun k => key_eqb k id) acc then acc else acc ++ [id].

Definition layer_ids (taken : list record) : list json :=
  fold_left seen_once (omap (fun l : record => l !! "id") taken) [].

(** A push record the loop of [push_image] gets past: it has no ['error']
    key and, if it has an ['id'], the id is hashable and the record has a
    truthy ['progressDetail'] or a ['status']. *)
Definition push_ok (progress : record) : bool :=
  negb (has_key "error" progress) &&
  match progress !! "id" with
  | None => true
  | Some id =>
      hashable id &&
      (from_option truthy false (progress !! "progressDetail") || has_key "status" progress)
  end.

(** No two entries of a snapshot are for the same layer id. *)
Definition distinct_ids (layers : list (json * json)) : Prop :=
  StronglySorted (fun a b => key_eqb a.1 b.1 = false) layers.

(** The build calls: the buildpack that builds and the image name. *)
Definition builds (evs : list event) : list (BuildPack * string) :=
  omap (fun e => match e with EvBuild bp tag => Some (val bp, tag) | _ => None end) evs.

Definition is_build (e : event) : bool :=
  match e with EvBuild _ _ => true | _ => false end.

(** How many calls of a kind a trace holds. *)
Definition count_of (kind : event -> bool) (evs : list event) : nat :=
  length (List.filter kind evs).

Definition is_sleep (e : event) : bool :=
  match e with EvSleep => true | _ => false end.

Definition is_remove (e : event) : bool :=
  match e with EvRemove => true | _ => false end.

Definition is_kill (e : event) : bool :=
  match e with EvKill => true | _ => false end.
End MoreObservations.

Section StartObservations.
Context {Mixin : Type} {D : Detectors Mixin} {W : Host Tree} {K : Docker}.

(** [start] up to and including the build (lines 357 to 389): what it
    returns is the checkout path. *)
Definition start_upstream (self : Repo2Docker Mixin) : M string :=
  do checkout_path <-
    (if String.eqb (repo_type self) "local" then ret (repo self)
     else
       let checkout_path := path_join (git_workdir self) uuid4 in
       fetch self (repo self) (ref self) checkout_path;;
       ret checkout_path);
  chdir checkout_path;;
  do selected <- select self;
  do description <- call_render (fst selected);
  log DEBUG (MsgStr description) "building";;
  (if build self then build_stage self (fst selected) (snd selected) else ret tt);;
  ret checkout_path.

(** [start] from the cleanup on (lines 391 to 398). *)
Definition start_downstream (fuel : nat) (self : Repo2Docker Mixin)
    (checkout_path : string) : M unit :=
  (if cleanup_checkout self then rmtree checkout_path else ret tt);;
  (if push self then push_image self else ret tt);;
  (if run self then run_image fuel self else ret tt).

(** A call that is neither a git command nor a removal, and that changes
    directory only to [path]. *)
Definition in_place (path : string) (e : event) : Prop :=
  match e with
  | EvExec _ _ | EvRmtree _ => False
  | EvChdir p => p = path
  | _ => True
  end.

(** A call that builds, publishes or runs nothing. *)
Definition dry (e : event) : Prop :=
  match e with
  | EvBuild _ _ | EvBuildRecord _ | EvPush _ | EvPushRecord _ | EvProgress _
  | EvFreePort _ | EvRun _ _ _ | EvSleep | EvReload _ | EvLogs | EvKill | EvRemove => False
  | _ => True
  end.

(** A call that takes no record from the build stream. *)
Definition takes_no_record (e : event) : Prop :=
  match e with
  | EvBuildRecord _ => False
  | _ => True
  end.

Definition is_rmtree (e : event) : bool :=
  match e with EvRmtree _ => true | _ => false end.

(** A computation that makes upstream calls only, and that either exits
    with status 1 or has consumed no halting build record. *)
Definition exits_on_failure {A} (m : M A) : Prop :=
  forall s, exists evs,
    trace (m s).2 = trace s ++ evs /\ Forall upstream evs /\
    ((m s).1 = Exc (SystemExit 1) \/
     Forall (fun l => halts_build l = false) (consumed evs)).
End StartObservations.

(** * A concrete world *)

Module Demo.

(** The classes [app.py] imports from [repo2docker.detectors]. *)
Inductive buildpack_class :=
| LegacyBinderDockerBuildPack
| DockerBuildPack
| CondaBuildPack
| JuliaBuildPack
| PythonBuildPack
| Python2BuildPack
| BaseImage.

(** The file that makes a class applicable, in this world. *)
Definition wanted (c : buildpack_class) : option string :=
  match c with
  | LegacyBinderDockerBuildPack => Some "Dockerfile.binder"
  | DockerBuildPack => Some "Dockerfile"
  | CondaBuildPack => Some "environment.yml"
  | JuliaBuildPack => Some "REQUIRE"
  | PythonBuildPack => Some "requirements.txt"
  | Python2BuildPack => Some "runtime.txt"
  | BaseImage => None
  end.

Definition class_detects (tree : list string) (c : buildpack_class) : bool :=
  match wanted c with
  | Some file => bool_decide (file ∈ tree)
  | None => true
  end.

(** Buildpacks as the list of their components; [records] is what a build
    streams. *)
Definition detectors (records : list record) : Detectors buildpack_class :=
  {| BuildPack := list buildpack_class;
     Tree := list string;
     bp_init m _ := [m];
     compose_with a b := a ++ b;
     detect bp tree := forallb (class_detects tree) bp;
     render bp := "FROM ubuntu:17.04";
     name bp := "composed";
     bp_build _ _ := records |}.

(** A host on which only [./notebooks] exists, whose working trees hold
    [files], where git commands succeed as [git] says and the clock reads
    [clock]. *)
Definition host (files : list string) (git : list (option string) -> bool)
    (clock : nat -> Q) : Host (list string) :=
  {| path_exists p := String.eqb p "./notebooks";
     working_tree _ := files;
     uuid4 := "1b9d6bcd-bbfd-4b2d-9b5d-ab8dfbbd4bed";
     time_time := clock;
     bound_port k := (49152 + Z.of_nat k)%Z;
     escape_lower r := r;
     execute_cmd cmd _ _ := ([], git cmd) |}.

Definition docker (lines : list record) (reports : nat -> attrs)
    (logs : list string * option exn) (killed : attrs) : Docker :=
  {| push_stream _ := lines;
     inspect := reports;
     log_stream := logs;
     after_kill := killed |}.

(** The traits as [app.py] declares them (lines 56 to 91); the other
    attributes are those set by [initialize]. *)
Definition app (kind source : string) (revision : option string) (clean : bool)
    (do_push do_run : bool) (command : list string) : Repo2Docker buildpack_class :=
  {| git_workdir := "/tmp";
     buildpacks :=
       [ [LegacyBinderDockerBuildPack];
         [DockerBuildPack];
         [BaseImage; CondaBuildPack; JuliaBuildPack];
         [BaseImage; CondaBuildPack];
         [BaseImage; PythonBuildPack; Python2BuildPack; JuliaBuildPack];
         [BaseImage; PythonBuildPack; JuliaBuildPack];
         [BaseImage; PythonBuildPack; Python2BuildPack];
         [BaseImage; PythonBuildPack] ];
     default_buildpack := [BaseImage; PythonBuildPack];
     repo_type := kind;
     repo := source;
     ref := revision;
     cleanup_checkout := clean;
     output_image_spec := "r2d-demo";
     push := do_push;
     run := do_run;
     json_logs := false;
     build := true;
     run_cmd := command |}.

Definition url : string := "https://github.com/you/your-repo".

Definition remote_app : Repo2Docker buildpack_class :=
  app "remote" url (Some "v1.0") true true false [].

Definition args : Args :=
  {| arg_config := "repo2docker_config.py";
     arg_json_logs := false;
     arg_repo := url;
     arg_image_name := Some "r2d-demo";
     arg_ref := Some "v1.0";
     arg_debug := false;
     arg_build := true;
     arg_cmd := [];
     arg_run := false;
     arg_clean := true;
     arg_push := true |}.

Definition steady_clock (k : nat) : Q := inject_Z (Z.of_nat k).

(** A clock that reads 2 and then two seconds more at every reading. *)
Definition slow_clock (k : nat) : Q := inject_Z (2 * Z.of_nat (S k)).

(** A clock that reads 0 once and then, two seconds later, ticks every
    tenth of a millisecond. *)
Definition burst_clock (k : nat) : Q :=
  match k with
  | O => 0
  | S _ => (20000 + Z.of_nat k) # 10000
  end.

Definition all_ok (cmd : list (option string)) : bool := true.
Definition all_fail (cmd : list (option string)) : bool := false.

Definition both_keys : record := {[ "stream" := JStr "Step 1/3"; "error" := JStr "boom" ]}.
Definition step : record := {[ "stream" := JStr "Step 2/3" ]}.
Definition failure : record := {[ "error" := JStr "no space left on device" ]}.
Definition built : record := {[ "stream" := JStr "Successfully built" ]}.

Definition pushing : record := {[ "id" := JStr "5f70bf18a086"; "status" := JStr "Pushing" ]}.

Definition quiet : nat -> attrs := fun _ => Attrs "exited" 0.

(** A container that is created, then runs, and is still running when its
    log stream breaks; once killed, the engine reports exit code 137. *)
Definition still_running (k : nat) : attrs :=
  match k with
  | O => Attrs "created" 0
  | S _ => Attrs "running" 0
  end.

Definition broken_stream : list string * option exn :=
  (["The Jupyter Notebook is running"], Some (StreamError "connection reset")).

(** A container that has exited with code 3 when its log stream ends. *)
Definition exited_3 (k : nat) : attrs :=
  match k with
  | O => Attrs "created" 0
  | 1 => Attrs "running" 0
  | _ => Attrs "exited" 3
  end.


(** A push record that reports a failure. *)
Definition denied : record := {[ "error" := JStr "denied: access forbidden" ]}.

(** [repo2docker --push --no-run ./notebooks] *)
Definition local_args : Args :=
  {| arg_config := "repo2docker_config.py";
     arg_json_logs := false;
     arg_repo := "./notebooks";
     arg_image_name := Some "r2d-demo";
     arg_ref := Some "v1.0";
     arg_debug := false;
     arg_build := true;
     arg_cmd := [];
     arg_run := false;
     arg_clean := true;
     arg_push := true |}.

(** [repo2docker --no-build --push https://github.com/you/your-repo] *)
Definition no_build_args : Args :=
  {| arg_config := "repo2docker_config.py";
     arg_json_logs := false;
     arg_repo := url;
     arg_image_name := Some "r2d-demo";
     arg_ref := Some "v1.0";
     arg_debug := false;
     arg_build := false;
     arg_cmd := [];
     arg_run := true;
     arg_clean := true;
     arg_push := true |}.

(** A configuration that empties the catalog. *)
Definition bare_app : Repo2Docker buildpack_class :=
  {| git_workdir := "/tmp";
     buildpacks := [];
     default_buildpack := [BaseImage; PythonBuildPack];
     repo_type := "local";
     repo := "./notebooks";
     ref := None;
     cleanup_checkout := false;
     output_image_spec := "r2d-demo";
     push := false;
     run := false;
     json_logs := false;
     build := true;
     run_cmd := [] |}.

Definition waiting : record := {[ "id" := JStr "a3ed95caeb02"; "status" := JStr "Waiting" ]}.


End Demo.

(** * Properties *)

(** Closes a goal [trace s' = trace s ++ evs] once [s'] is explicit. *)
Ltac trace_eq :=
  repeat match goal with x := _ : state |- _ => subst x end;
  cbn [trace logged]; rewrite <- ?app_assoc; reflexivity.

(** ** The kinds of call a computation makes *)

Section Emits.
Context {Mixin : Type} {D : Detectors Mixin} {W : Host Tree} {K : Docker}.
Implicit Types (s : state) (P : event -> Prop).


Lemma emits_weaken {A} P (Q : event -> Prop) (m : M A) :
  (forall e, P e -> Q e) -> emits P m -> emits Q m.
Proof.
  intros HPQ Hm s. destruct (Hm s) as (evs & Htr & Hall).
  exists evs. split; [done|]. eapply Forall_impl; eauto.
Qed.

Lemma emits_silent {A} P (m : M A) :
  (forall s, trace (m s).2 = trace s) -> emits P m.
Proof. intros Hm s. exists []. rewrite Hm, app_nil_r. by split. Qed.

Lemma emits_ret {A} P (a : A) : emits P (ret a).
Proof. by apply emits_silent. Qed.

Lemma emits_raise {A} P (e : exn) : emits P (raise (A := A) e).
Proof. by apply emits_silent. Qed.

Lemma emits_hang {A} P : emits P (hang (A := A)).
Proof. by apply emits_silent. Qed.

Lemma emits_emit P (e : event) : P e -> emits P (emit e).
Proof. intros He s. exists [e]. split; [done|]. by constructor. Qed.

Lemma emits_bind {A B} P (m : M A) (k : A -> M B) :
  emits P m -> (forall a, emits P (k a)) -> emits P (bind m k).
Proof.
  intros Hm Hk s. destruct (Hm s) as (evs & Htr & Hall). unfold bind.
  destruct (m s) as [[a|e|] s1]; cbn in Htr; [|by exists evs..].
  destruct (Hk a s1) as (evs' & Htr' & Hall').
  exists (evs ++ evs'). rewrite Htr', Htr, app_assoc. split; [done|].
  by apply Forall_app.
Qed.

Lemma emits_try_finally {A} P (body : M A) (fin : M unit) :
  emits P body -> emits P fin -> emits P (try_finally body fin).
Proof.
  intros Hb Hf s. destruct (Hb s) as (evs & Htr & Hall). unfold try_finally.
  destruct (body s) as [[a|e|] s1]; cbn in Htr; [| |by exists evs];
    destruct (Hf s1) as (evs' & Htr' & Hall');
    (exists (evs ++ evs'); split; [|by apply Forall_app]);
    destruct (fin s1) as [[[]|e'|] s2]; cbn in *; by rewrite Htr', Htr, app_assoc.
Qed.
End Emits.

Create HintDb emits discriminated.
#[export] Hint Resolve emits_ret emits_raise emits_hang emits_bind emits_try_finally : emits.

(** ** [compose] *)

Section ComposeProperties.
Context {Mixin : Type} {D : Detectors Mixin}.
Implicit Types (s : state) (parent : option (Repo2Docker Mixin)).

Lemma instantiated_app (a b : list event) :
  instantiated (a ++ b) = instantiated a ++ instantiated b.
Proof. apply omap_app. Qed.

Lemma detect_calls_app (a b : list event) :
  detect_calls (a ++ b) = detect_calls a ++ detect_calls b.
Proof. apply omap_app. Qed.


Lemma compose_loop_spec parent rest : forall image s,
  exists r s',
    compose_loop image rest parent s = (Ret r, s') /\
    val r = fold_left (extend parent) rest (val image) /\
    (next_oid s <= next_oid s')%nat /\
    (rest <> [] -> next_oid s <= oid r < next_oid s')%nat /\
    (rest = [] -> r = image) /\
    ticks s' = ticks s /\ probes s' = probes s /\
    inspections s' = inspections s /\ cwd s' = cwd s /\
    exists evs, trace s' = trace s ++ evs /\
                instantiated evs = rest /\ detect_calls evs = [].
Proof.
  induction rest as [|m rest IH]; intros image s.
  - exists image, s. cbn. repeat split; try lia; try congruence.
    exists []. by rewrite app_nil_r.
  - cbn [compose_loop].
    set (other := Obj (next_oid s) (bp_init m parent)).
    set (image' := Obj (S (next_oid s)) (compose_with (val image) (val other))).
    set (s1 := State (S (S (next_oid s))) (ticks s) (probes s) (inspections s) (cwd s)
                     ((trace s ++ [EvNew m other]) ++ [EvComposeWith image other image'])).
    destruct (IH image' s1) as (r & s' & Hrun & Hval & Hle & Hfresh & Hnil & Ht & Hp & Hi & Hc
                                & evs & Htr & Hinst & Hdet).
    exists r, s'. split.
    { unfold bind, new, call_compose_with, alloc, emit, ret. cbn. exact Hrun. }
    cbn in Hval, Hle, Hfresh, Ht, Hp, Hi, Hc, Htr.
    assert (next_oid s <= oid r < next_oid s')%nat as Hr.
    { destruct rest as [|m' rest'].
      - rewrite (Hnil eq_refl). cbn. lia.
      - assert (m' :: rest' <> []) as Hne by discriminate.
        specialize (Hfresh Hne). lia. }
    split; [exact Hval|]. split; [lia|]. split; [intros _; exact Hr|].
    split; [discriminate|]. repeat (split; [congruence|]).
    exists ([EvNew m other; EvComposeWith image other image'] ++ evs).
    rewrite Htr, <- !app_assoc. split; [reflexivity|].
    rewrite instantiated_app, detect_calls_app, Hinst, Hdet. done.
Qed.

Lemma compose_spec parent first rest s :
  exists r s',
    compose (first :: rest) parent s = (Ret r, s') /\
    composes parent (first :: rest)
             (fold_left (extend parent) rest (bp_init first parent)) s r s'.
Proof.
  set (image := Obj (next_oid s) (bp_init first parent)).
  set (s1 := State (S (next_oid s)) (ticks s) (probes s) (inspections s) (cwd s)
                   (trace s ++ [EvNew first image])).
  destruct (compose_loop_spec parent rest image s1)
    as (r & s' & Hrun & Hval & Hle & Hfresh & Hnil & Ht & Hp & Hi & Hc
        & evs & Htr & Hinst & Hdet).
  exists r, s'. split; [exact Hrun|].
  cbn in Hval, Hle, Hfresh, Ht, Hp, Hi, Hc, Htr.
  assert (next_oid s <= oid r < next_oid s')%nat as Hr.
  { destruct rest as [|m' rest'].
    - rewrite (Hnil eq_refl). cbn. lia.
    - assert (m' :: rest' <> []) as Hne by discriminate.
      specialize (Hfresh Hne). lia. }
  unfold composes. repeat (split; [first [exact Hval | exact Hr | congruence | lia]|]).
  exists (EvNew first image :: evs).
  rewrite Htr, <- app_assoc. split; [reflexivity|].
  change (EvNew first image :: evs) with ([EvNew first image] ++ evs).
  rewrite instantiated_app, detect_calls_app, Hinst, Hdet. done.
Qed.

Lemma compose_loop_snoc parent rest (c : Mixin) : forall image s,
  compose_loop image (rest ++ [c]) parent s =
  (do image' <- compose_loop image rest parent;
   do other <- new c parent;
   call_compose_with image' other) s.
Proof.
  induction rest as [|m rest IH]; intros image s.
  - reflexivity.
  - cbn [app compose_loop]. unfold bind at 1 2 4 5. cbn.
    rewrite IH. reflexivity.
Qed.

(** C5.  [compose] on a non-empty chain instantiates the first class with
    the given parent and extends the instance with each remaining class,
    instantiated with the same parent, from left to right: the classes
    are instantiated in chain order, and composing a chain with one more
    class at its end is composing the chain and then extending the
    result with that class. *)
Theorem compose_folds_left_to_right parent (first : Mixin) (rest : list Mixin) s :
  exists image s' evs,
    compose (first :: rest) parent s = (Ret image, s') /\
    val image = fold_left (fun acc m => compose_with acc (bp_init m parent))
                          rest (bp_init first parent) /\
    trace s' = trace s ++ evs /\
    instantiated evs = first :: rest /\
    forall c : Mixin,
      compose ((first :: rest) ++ [c]) parent s =
      (do image <- compose (first :: rest) parent;
       do other <- new c parent;
       call_compose_with image other) s /\
      composed parent ((first :: rest) ++ [c]) =
      Some (compose_with (val image) (bp_init c parent)).
Proof.
  destruct (compose_spec parent first rest s)
    as (image & s' & Hrun & Hval & _ & _ & _ & _ & _ & evs & Htr & Hinst & _).
  exists image, s', evs. repeat (split; [assumption|]).
  intros c. split.
  - cbn [app compose]. unfold bind at 1 2. cbn.
    rewrite compose_loop_snoc. reflexivity.
  - cbn. rewrite fold_left_app. cbn. unfold extend at 1. by rewrite Hval.
Qed.
End ComposeProperties.

(** ** Selection *)

Section SelectionProperties.
Context {Mixin : Type} {D : Detectors Mixin} {W : Host Tree}.
Implicit Types (s : state) (self : Repo2Docker Mixin).

Lemma stops_at_first_true_nil : stops_at_first_true [].
Proof. intros [|? ?] ? ? Heq; discriminate. Qed.

Lemma stops_at_first_true_one (call : BuildPack * bool) :
  stops_at_first_true [call].
Proof.
  intros [|x pre] c post Heq _.
  - by injection Heq.
  - injection Heq as _ Heq. by destruct pre.
Qed.

Lemma stops_at_first_true_cons (bp : BuildPack) calls :
  stops_at_first_true calls -> stops_at_first_true ((bp, false) :: calls).
Proof.
  intros Hs [|x pre] c post Heq Htrue.
  - injection Heq as <- _. discriminate.
  - injection Heq as _ Heq. eapply Hs; eauto.
Qed.

Lemma call_detect_run (bp : obj) s :
  call_detect bp s =
  (Ret (detect (val bp) (working_tree (cwd s))),
   State (next_oid s) (ticks s) (probes s) (inspections s) (cwd s)
         (trace s ++ [EvDetect bp (detect (val bp) (working_tree (cwd s)))])).
Proof. reflexivity. Qed.

(** The loop of [start] over the catalog, from any state. *)
Lemma select_loop_spec self (catalog : list (list Mixin)) :
  Forall (fun chain => chain <> []) catalog ->
  forall (picked : obj) (bp : option obj) s,
  exists picked' bp' s' evs,
    select_loop catalog self picked bp s = (Ret (picked', bp'), s') /\
    trace s' = trace s ++ evs /\
    instantiated evs = concat (tried (Some self) (working_tree (cwd s)) catalog) /\
    detect_calls evs =
      omap (asked (Some self) (working_tree (cwd s)))
           (tried (Some self) (working_tree (cwd s)) catalog) /\
    stops_at_first_true (detect_calls evs) /\
    match first_match (Some self) (working_tree (cwd s)) catalog with
    | Some chain =>
        composed (Some self) chain = Some (val picked') /\
        (next_oid s <= oid picked')%nat
    | None => picked' = picked
    end /\
    cwd s' = cwd s /\ (next_oid s <= next_oid s')%nat.
Proof.
  induction 1 as [|chain catalog Hne _ IH]; intros picked bp s.
  - exists picked, bp, s, []. cbn. rewrite app_nil_r.
    repeat split; auto using stops_at_first_true_nil.
  - destruct chain as [|first rest]; [done|].
    destruct (compose_spec (Some self) first rest s)
      as (b & s1 & Hrun & Hval & Hoid & _ & _ & _ & Hcwd & evs1 & Htr1 & Hinst1 & Hdet1).
    set (tree := working_tree (cwd s)).
    set (found := detect (val b) tree).
    set (s2 := State (next_oid s1) (ticks s1) (probes s1) (inspections s1) (cwd s1)
                     (trace s1 ++ [EvDetect b found])).
    assert (Hm : matches (Some self) tree (first :: rest) = found).
    { unfold matches, composed, found. by rewrite Hval. }
    assert (Hasked : asked (Some self) tree (first :: rest) = Some (val b, found)).
    { unfold asked, composed, found. by rewrite Hval. }
    assert (Hstep : select_loop ((first :: rest) :: catalog) self picked bp s =
                    if found then (Ret (b, Some b), s2)
                    else select_loop catalog self picked (Some b) s2).
    { cbn [select_loop]. unfold bind. rewrite Hrun, call_detect_run.
      subst s2 found tree. rewrite Hcwd.
      by destruct (detect (val b) (working_tree (cwd s))). }
    rewrite Hstep. cbn [tried first_match]. rewrite Hm.
    destruct found eqn:Hfound.
    + exists b, (Some b), s2, (evs1 ++ [EvDetect b true]).
      split; [reflexivity|]. split; [by subst s2; cbn; rewrite Htr1, app_assoc|].
      rewrite instantiated_app, detect_calls_app, Hinst1, Hdet1.
      cbn [omap list_omap]. rewrite Hasked. cbn. rewrite !app_nil_r.
      repeat split; auto using stops_at_first_true_one; try lia.
      unfold composed. by rewrite Hval.
    + destruct (IH picked (Some b) s2)
        as (picked' & bp' & s' & evs & Hrun' & Htr & Hinst & Hdet & Hstop & Hsel & Hcwd' & Hle).
      change (cwd s2) with (cwd s1) in Hinst, Hdet, Hsel, Hcwd'.
      rewrite Hcwd in Hinst, Hdet, Hsel, Hcwd'. fold tree in Hinst, Hdet, Hsel.
      change (next_oid s2) with (next_oid s1) in Hsel, Hle.
      exists picked', bp', s', (evs1 ++ [EvDetect b false] ++ evs).
      split; [exact Hrun'|].
      split; [by rewrite Htr; subst s2; cbn; rewrite Htr1, <- !app_assoc|].
      rewrite !instantiated_app, !detect_calls_app, Hinst1, Hdet1, Hinst, Hdet.
      cbn [omap list_omap]. rewrite Hasked. cbn.
      repeat split; try lia; try done.
      * rewrite <- Hdet. by apply stops_at_first_true_cons.
      * destruct (first_match _ _ _); [|done].
        destruct Hsel as [? ?]. split; [done|lia].
Qed.

Lemma first_match_none parent (tree : Tree) (catalog : list (list Mixin)) :
  first_match parent tree catalog = None <->
  Forall (fun chain => matches parent tree chain = false) catalog.
Proof.
  induction catalog as [|chain catalog IH]; cbn.
  - split; [constructor|done].
  - destruct (matches parent tree chain) eqn:Hm.
    + split; [done|]. intros Hall. inversion Hall; congruence.
    + rewrite IH. split; [by constructor|]. intros Hall. by inversion Hall.
Qed.

Lemma select_spec self s :
  default_buildpack self <> [] ->
  Forall (fun chain => chain <> []) (buildpacks self) ->
  exists dflt s0 picked bp s' evs,
    compose (default_buildpack self) (Some self) s = (Ret dflt, s0) /\
    select self s = (Ret (picked, bp), s') /\
    trace s' = trace s ++ evs /\
    instantiated evs =
      default_buildpack self
      ++ concat (tried (Some self) (working_tree (cwd s)) (buildpacks self)) /\
    detect_calls evs =
      omap (asked (Some self) (working_tree (cwd s)))
           (tried (Some self) (working_tree (cwd s)) (buildpacks self)) /\
    stops_at_first_true (detect_calls evs) /\
    composed (Some self)
             (default (default_buildpack self)
                      (first_match (Some self) (working_tree (cwd s)) (buildpacks self)))
    = Some (val picked) /\
    (picked = dflt <->
     Forall (fun chain => matches (Some self) (working_tree (cwd s)) chain = false)
            (buildpacks self)) /\
    cwd s' = cwd s.
Proof.
  intros Hdef Hcat.
  destruct (default_buildpack self) as [|first rest] eqn:Hd; [done|].
  destruct (compose_spec (Some self) first rest s)
    as (dflt & s0 & Hrun & Hval & Hoid & _ & _ & _ & Hcwd & evs0 & Htr0 & Hinst0 & Hdet0).
  destruct (select_loop_spec self (buildpacks self) Hcat dflt None s0)
    as (picked & bp & s' & evs & Hloop & Htr & Hinst & Hdet & Hstop & Hsel & Hcwd' & _).
  rewrite Hcwd in Hinst, Hdet, Hsel, Hcwd'.
  exists dflt, s0, picked, bp, s', (evs0 ++ evs).
  split; [exact Hrun|].
  split; [by unfold select, bind; rewrite Hd, Hrun|].
  split; [by rewrite Htr, Htr0, app_assoc|].
  rewrite instantiated_app, detect_calls_app, Hinst0, Hdet0, Hinst, Hdet. cbn [app].
  split; [done|]. split; [done|]. split; [by rewrite <- Hdet|].
  rewrite <- first_match_none.
  destruct (first_match _ _ _) as [chain|]; cbn [default].
  - destruct Hsel as [Hc Hfresh].
    split; [exact Hc|]. split; [|congruence].
    split; [intros ->; lia|discriminate].
  - subst picked. split; [by cbn; rewrite Hval|]. split; [done|congruence].
Qed.

(** C1.  The selector composes the default chain, then the catalog
    entries in declared order, asking each composed entry [detect()]; it
    stops at the first entry that answers true (no [detect()] call
    follows an answer true) and picks it; the buildpack composed from
    the default chain stays picked if and only if no entry matches; and
    from any other state with the same working tree the same strategy
    is picked after the same [detect()] calls. *)
Theorem selection_is_first_match self s :
  default_buildpack self <> [] ->
  Forall (fun chain => chain <> []) (buildpacks self) ->
  let parent := Some self in
  let tree := working_tree (cwd s) in
  exists dflt s0 picked bp s' evs,
    compose (default_buildpack self) parent s = (Ret dflt, s0) /\
    select self s = (Ret (picked, bp), s') /\
    trace s' = trace s ++ evs /\
    instantiated evs =
      default_buildpack self ++ concat (tried parent tree (buildpacks self)) /\
    detect_calls evs = omap (asked parent tree) (tried parent tree (buildpacks self)) /\
    stops_at_first_true (detect_calls evs) /\
    composed parent
             (default (default_buildpack self) (first_match parent tree (buildpacks self)))
    = Some (val picked) /\
    (picked = dflt <->
     Forall (fun chain => matches parent tree chain = false) (buildpacks self)) /\
    forall s2, working_tree (cwd s2) = tree ->
      exists picked2 bp2 s2',
        select self s2 = (Ret (picked2, bp2), s2') /\
        val picked2 = val picked /\
        detect_calls (drop (length (trace s2)) (trace s2')) = detect_calls evs.
Proof.
  intros Hdef Hcat parent tree.
  destruct (select_spec self s Hdef Hcat)
    as (dflt & s0 & picked & bp & s' & evs & Hrun & Hsel & Htr & Hinst & Hdet & Hstop
        & Hval & Hiff & _).
  exists dflt, s0, picked, bp, s', evs.
  repeat (split; [assumption|]).
  intros s2 Htree.
  destruct (select_spec self s2 Hdef Hcat)
    as (_ & _ & picked2 & bp2 & s2' & evs2 & _ & Hsel2 & Htr2 & _ & Hdet2 & _ & Hval2 & _).
  rewrite Htree in Hdet2, Hval2.
  exists picked2, bp2, s2'. split; [exact Hsel2|]. split.
  - subst parent tree. congruence.
  - rewrite Htr2, drop_app_length. subst parent tree. congruence.
Qed.
End SelectionProperties.

(** ** [fetch] *)

Section FetchProperties.
Context {Mixin : Type} {D : Detectors Mixin} {W : Host Tree}.
Implicit Types (s : state) (self : Repo2Docker Mixin).

Lemma logged_nil s : logged s [] = s.
Proof. destruct s. unfold logged. cbn. by rewrite app_nil_r. Qed.

Lemma logged_logged s (a b : list event) : logged (logged s a) b = logged s (a ++ b).
Proof. unfold logged. cbn. by rewrite app_assoc. Qed.

Lemma execs_app (a b : list event) : execs (a ++ b) = execs a ++ execs b.
Proof. apply omap_app. Qed.


Lemma log_lines_run lv phase lines : forall s,
  log_lines lv lines phase s = (Ret tt, logged s (line_events lv phase lines)).
Proof.
  induction lines as [|line lines IH]; intros s; cbn.
  - by rewrite logged_nil.
  - unfold bind, log, emit. rewrite IH, logged_logged. reflexivity.
Qed.

Lemma execs_line_events lv phase lines : execs (line_events lv phase lines) = [].
Proof. induction lines; [done|]. cbn. exact IHlines. Qed.

Lemma run_logged_run cmd dir capture lv s :
  well_formed cmd = true ->
  run_logged cmd dir capture lv s =
  (Ret (execute_cmd cmd dir capture).2,
   logged s (EvExec cmd dir :: line_events lv "fetching" (execute_cmd cmd dir capture).1)).
Proof.
  intros Hw. unfold run_logged, bind, emit.
  rewrite Hw, log_lines_run, logged_logged. reflexivity.
Qed.

Lemma run_logged_raises cmd dir capture lv s :
  well_formed cmd = false ->
  run_logged cmd dir capture lv s = (Exc bad_argument, logged s [EvExec cmd dir]).
Proof. intros Hw. unfold run_logged, bind, emit. by rewrite Hw. Qed.


Lemma execs_exec_events cmd dir capture lv :
  execs (exec_events cmd dir capture lv) = [(cmd, dir)].
Proof.
  change (exec_events cmd dir capture lv)
    with ([EvExec cmd dir] ++ line_events lv "fetching" (execute_cmd cmd dir capture).1).
  by rewrite execs_app, execs_line_events.
Qed.


Lemma fetch_run self url (rev : string) path s :
  let ref := Some rev in
  let cap := json_logs self in
  let clone := clone_command (Some 50%nat) url path in
  let probe := contains_command ref in
  let reset := checkout_command ref in
  let ok cmd dir := (execute_cmd cmd dir cap).2 in
  let e_clone := exec_events clone None cap INFO in
  let e_probe := exec_events probe (Some path) cap DEBUG in
  let e_unshallow := exec_events unshallow_command (Some path) cap INFO in
  let e_reset := exec_events reset (Some path) cap INFO in
  let checkout prefix :=
    if ok reset (Some path) then (Ret tt, logged s (prefix ++ e_reset))
    else (Exc (RuntimeError ("Failed to checkout reference " ++ fmt_s ref
                             ++ " for " ++ url ++ ".")),
          logged s (prefix ++ e_reset
                    ++ [failed ("Failed to check out ref " ++ fmt_s ref)])) in
  fetch self url ref path s =
  if ok clone None then
    if ok probe (Some path) then checkout (e_clone ++ e_probe)
    else if ok unshallow_command (Some path)
         then checkout (e_clone ++ e_probe ++ e_unshallow)
         else (Exc (RuntimeError ("Failed to create a full clone of " ++ url ++ ".")),
               logged s (e_clone ++ e_probe ++ e_unshallow
                         ++ [failed "Failed to unshallow repository!"]))
  else (Exc (RuntimeError ("Failed to clone " ++ url ++ ".")),
        logged s (e_clone ++ [failed "Failed to clone repository!"])).
Proof.
  intros ref cap clone probe reset ok e_clone e_probe e_unshallow e_reset checkout.
  unfold fetch, _clone, _contains, _unshallow, _checkout, bind.
  rewrite run_logged_run by reflexivity. fold clone cap. fold (ok clone None).
  destruct (ok clone None).
  2:{ unfold log, emit, raise. by rewrite logged_logged. }
  cbn [ret]. rewrite run_logged_run by reflexivity. fold probe. fold (ok probe (Some path)).
  destruct (ok probe (Some path)); cbn [negb ret].
  - rewrite run_logged_run by reflexivity. fold reset. fold (ok reset (Some path)).
    unfold checkout. destruct (ok reset (Some path)).
    + cbn [ret]. by rewrite !logged_logged, <- ?app_assoc.
    + unfold log, emit, raise. by rewrite !logged_logged, <- ?app_assoc.
  - rewrite run_logged_run by reflexivity. fold (ok unshallow_command (Some path)).
    destruct (ok unshallow_command (Some path)).
    + cbn [ret]. rewrite run_logged_run by reflexivity. fold reset. fold (ok reset (Some path)).
      unfold checkout. destruct (ok reset (Some path)).
      * cbn [ret]. by rewrite !logged_logged, <- ?app_assoc.
      * unfold log, emit, raise. by rewrite !logged_logged, <- ?app_assoc.
    + unfold log, emit, raise. by rewrite !logged_logged, <- ?app_assoc.
Qed.

(** Without a revision, [fetch] ends at the probe. *)
Lemma fetch_no_ref self url path s :
  let cap := json_logs self in
  let clone := clone_command (Some 50%nat) url path in
  fetch self url None path s =
  if (execute_cmd clone None cap).2
  then (Exc bad_argument,
        logged s (exec_events clone None cap INFO
                  ++ [EvExec (contains_command None) (Some path)]))
  else (Exc (RuntimeError ("Failed to clone " ++ url ++ ".")),
        logged s (exec_events clone None cap INFO ++ [failed "Failed to clone repository!"])).
Proof.
  intros cap clone. unfold fetch, _clone, _contains, bind.
  rewrite run_logged_run by reflexivity. fold clone cap.
  destruct (execute_cmd clone None cap).2.
  - cbn [ret]. rewrite run_logged_raises by reflexivity. by rewrite logged_logged.
  - unfold log, emit, raise. by rewrite logged_logged.
Qed.

Lemma append_cons (c : ascii) (a b : string) : (String c a ++ b = String c (a ++ b))%string.
Proof. reflexivity. Qed.

Lemma append_nil (b : string) : ("" ++ b = b)%string.
Proof. reflexivity. Qed.

Lemma starts_with_app (p rest : string) : starts_with p (p ++ rest) = true.
Proof.
  induction p as [|c p IH]; [done|].
  rewrite append_cons. cbn [starts_with]. by rewrite Ascii.eqb_refl.
Qed.

Lemma includes_prefix (needle hay : string) :
  starts_with needle hay = true -> includes needle hay = true.
Proof. intros Hp. destruct hay; cbn [includes]; by rewrite Hp. Qed.

Lemma includes_app (a needle b : string) : includes needle (a ++ needle ++ b) = true.
Proof.
  induction a as [|c a IH].
  - rewrite append_nil. apply includes_prefix, starts_with_app.
  - rewrite append_cons. cbn [includes]. by rewrite IH, Tauto.if_same.
Qed.

Lemma append_assoc (a b c : string) : ((a ++ b) ++ c = a ++ b ++ c)%string.
Proof. induction a as [|x a IH]; [done|]. by rewrite !append_cons, IH. Qed.

Lemma includes_app4 (a b c needle d : string) :
  includes needle (a ++ b ++ c ++ needle ++ d) = true.
Proof. rewrite <- (append_assoc b), <- (append_assoc a). apply includes_app. Qed.

(** The commands [fetch] runs and how it ends, by the results of the four
    commands; without a revision the probe raises. *)
Lemma fetch_summary self url ref path s :
  let cap := json_logs self in
  let ok cmd dir := (execute_cmd cmd dir cap).2 in
  exists evs,
    fetch self url ref path s =
      (if ok (clone_command (Some 50%nat) url path) None then
         match ref with
         | None => Exc bad_argument
         | Some _ =>
             if ok (contains_command ref) (Some path) || ok unshallow_command (Some path) then
               if ok (checkout_command ref) (Some path) then Ret tt
               else Exc (RuntimeError ("Failed to checkout reference " ++ fmt_s ref
                                       ++ " for " ++ url ++ "."))
             else Exc (RuntimeError ("Failed to create a full clone of " ++ url ++ "."))
         end
       else Exc (RuntimeError ("Failed to clone " ++ url ++ ".")),
       logged s evs) /\
    execs evs =
      (clone_command (Some 50%nat) url path, None)
      :: (if ok (clone_command (Some 50%nat) url path) None then
            (contains_command ref, Some path)
            :: match ref with
               | None => []
               | Some _ =>
                   if ok (contains_command ref) (Some path)
                   then [(checkout_command ref, Some path)]
                   else (unshallow_command, Some path)
                        :: (if ok unshallow_command (Some path)
                            then [(checkout_command ref, Some path)] else [])
               end
          else []).
Proof.
  intros cap ok. destruct ref as [rev|].
  - pose proof (fetch_run self url rev path s) as Hrun. cbv zeta in Hrun.
    rewrite Hrun. clear Hrun. subst ok cap. cbn beta.
    destruct (execute_cmd (clone_command (Some 50%nat) url path) None (json_logs self)).2,
             (execute_cmd (contains_command (Some rev)) (Some path) (json_logs self)).2,
             (execute_cmd unshallow_command (Some path) (json_logs self)).2,
             (execute_cmd (checkout_command (Some rev)) (Some path) (json_logs self)).2;
      (eexists; split; [reflexivity|];
       rewrite ?execs_app, ?execs_exec_events; reflexivity).
  - pose proof (fetch_no_ref self url path s) as Hrun. cbv zeta in Hrun.
    rewrite Hrun. clear Hrun. subst ok cap. cbn beta.
    destruct (execute_cmd (clone_command (Some 50%nat) url path) None (json_logs self)).2;
      (eexists; split; [reflexivity|];
       rewrite ?execs_app, ?execs_exec_events; reflexivity).
Qed.


(** C8 (as amended).  When a command of the clone, unshallow or checkout
    step fails, [fetch] raises a [RuntimeError] at once: the failed
    command is the last one run and no command is run twice.  The
    message names the source location; it names the revision when the
    failed step is the checkout, and is one of the two messages about the
    location alone otherwise. *)
Theorem fetch_failure_is_fatal self url ref path s r s'
    (cmd : list (option string)) (dir : option string) :
  fetch self url ref path s = (r, s') ->
  (cmd, dir) ∈ execs (drop (length (trace s)) (trace s')) ->
  cmd <> contains_command ref ->
  (execute_cmd cmd dir (json_logs self)).2 = false ->
  exists msg,
    r = Exc (RuntimeError msg) /\
    last (execs (drop (length (trace s)) (trace s'))) = Some (cmd, dir) /\
    NoDup (execs (drop (length (trace s)) (trace s'))) /\
    includes url msg = true /\
    (cmd = checkout_command ref -> includes (fmt_s ref) msg = true) /\
    (cmd <> checkout_command ref ->
     msg = ("Failed to clone " ++ url ++ ".")%string \/
     msg = ("Failed to create a full clone of " ++ url ++ ".")%string).
Proof.
  destruct (fetch_summary self url ref path s) as (evs & Hrun & Hexecs).
  cbv zeta in Hrun, Hexecs. rewrite Hrun. intros Heq.
  apply pair_equal_spec in Heq as [Hr <-]. cbn [trace logged].
  rewrite drop_app_length, Hexecs. clear Hexecs Hrun.
  unfold clone_command, unshallow_command, contains_command, checkout_command in *.
  destruct (execute_cmd [Some "git"; Some "clone"; Some "--depth"; Some (str_of_nat 50);
                         Some url; Some path] None (json_logs self)).2 eqn:Hclone;
  destruct (execute_cmd [Some "git"; Some "cat-file"; Some "-t"; ref] (Some path)
                        (json_logs self)).2 eqn:Hprobe;
  destruct (execute_cmd [Some "git"; Some "fetch"; Some "--unshallow"] (Some path)
                        (json_logs self)).2 eqn:Hunshallow;
  destruct (execute_cmd [Some "git"; Some "reset"; Some "--hard"; ref] (Some path)
                        (json_logs self)).2 eqn:Hreset;
    destruct ref as [rev|];
    cbn [orb] in Hr; subst r;
    intros Hin Hnp Hfail;
    repeat (apply elem_of_cons in Hin as [[= -> ->]|Hin]; [try congruence|]);
    try (by apply elem_of_nil in Hin);
    (eexists; split; [reflexivity|]; split; [reflexivity|];
     split; [repeat (apply NoDup_cons; split;
                     [rewrite ?elem_of_cons, elem_of_nil; intuition discriminate|]);
             apply NoDup_nil_2|];
     split; [first [apply includes_app | apply includes_app4]|];
     split; [intros ?; first [congruence | apply includes_app]|];
     intros ?; first [congruence | by left | by right]).
Qed.
End FetchProperties.


(** ** The build loop *)

Section BuildProperties.
Context {Mixin : Type} {D : Detectors Mixin}.
Implicit Types (s : state) (l : record).

Lemma consumed_app (a b : list event) : consumed (a ++ b) = consumed a ++ consumed b.
Proof. apply omap_app. Qed.

(** One round of the build loop on a record that does not stop it. *)
Lemma build_loop_continue l (records : list record) s :
  halts_build l = false ->
  exists evs,
    build_loop (l :: records) s = build_loop records (logged s evs) /\
    consumed evs = [l].
Proof.
  unfold halts_build, has_key. intros Hl. cbn [build_loop].
  unfold bind, emit, log, has_key.
  destruct (l !! "stream") as [text|] eqn:Hstream.
  - exists [EvBuildRecord l; EvLog INFO (MsgJson text) "building"].
    cbn. by rewrite logged_logged.
  - destruct (l !! "error") as [err|] eqn:Herr; [done|].
    destruct (l !! "status") as [st|] eqn:Hstatus; cbn; unfold emit;
      rewrite logged_logged; eexists; split; reflexivity.
Qed.

(** C2 (as amended).  In any sequence of build records, the first record
    that has an ['error'] key and no ['stream'] key ends the invocation
    with [sys.exit(1)], whatever follows it: the records taken from the
    stream are those up to and including it. *)
Theorem build_error_halts (pre : list record) l (post : list record) s :
  Forall (fun r => halts_build r = false) pre ->
  has_key "error" l = true ->
  has_key "stream" l = false ->
  exists s' evs,
    build_loop (pre ++ l :: post) s = (Exc (SystemExit 1), s') /\
    trace s' = trace s ++ evs /\
    consumed evs = pre ++ [l].
Proof.
  intros Hpre Herr Hstream. revert s.
  induction Hpre as [|r pre Hr _ IH]; intros s.
  - cbn [app build_loop]. unfold has_key in Herr, Hstream.
    destruct (l !! "stream") eqn:Hs; [done|].
    destruct (l !! "error") as [err|] eqn:He; [|done].
    eexists _, [EvBuildRecord l; EvLog INFO (MsgJson err) "failure"].
    unfold bind, emit, log, sys_exit, raise. cbn.
    rewrite logged_logged. done.
  - destruct (build_loop_continue r (pre ++ l :: post) s Hr) as (evs1 & Hrun & Hc1).
    destruct (IH (logged s evs1)) as (s' & evs & Hrun' & Htr & Hc).
    exists s', (evs1 ++ evs). cbn [app]. rewrite Hrun, Hrun'.
    split; [done|]. split; [by rewrite Htr; cbn; rewrite app_assoc|].
    by rewrite consumed_app, Hc1, Hc.
Qed.
End BuildProperties.


(** ** [push_image] *)

Section PushProperties.
Context {Mixin : Type} {D : Detectors Mixin} {W : Host Tree} {K : Docker}.
Implicit Types (s : state) (progress : record).

(** C9.  For a push record that has an ['id'], no ['error'] and no truthy
    ['progressDetail'], the value stored for the layer is the record's
    ['status']: when the record has none, [push_image] ends with an
    unhandled [KeyError], with nothing logged and no [sys.exit(1)].  For a
    record with a truthy ['progressDetail'] the stored value is that
    detail, whether or not there is a ['status']. *)
Theorem push_record_reads_status progress (id : json) (lines : list record)
    (layers : list (json * json)) (last_emit_time : Q) s :
  (progress !! "error" = None ->
   progress !! "id" = Some id ->
   from_option truthy false (progress !! "progressDetail") = false ->
   layer_value progress s = (from_option Ret (Exc (KeyError "status")) (progress !! "status"), s) /\
   (progress !! "status" = None ->
    push_loop (progress :: lines) layers last_emit_time s =
    (Exc (KeyError "status"), logged s [EvPushRecord progress]))) /\
  (forall detail,
     progress !! "progressDetail" = Some detail -> truthy detail = true ->
     layer_value progress s = (Ret detail, s) /\
     layer_value (delete "status" progress) s = (Ret detail, s)).
Proof.
  split.
  - intros Herr Hid Hdetail.
    assert (Hv : forall s0, layer_value progress s0 =
                 (from_option Ret (Exc (KeyError "status")) (progress !! "status"), s0)).
    { intros s0. unfold layer_value, getitem.
      destruct (progress !! "progressDetail") as [detail|]; cbn in Hdetail.
      - rewrite Hdetail. by destruct (progress !! "status").
      - by destruct (progress !! "status"). }
    split; [apply Hv|]. intros Hstatus.
    cbn [push_loop]. unfold bind at 1. unfold emit. rewrite Herr, Hid.
    unfold bind at 1. rewrite Hv, Hstatus. reflexivity.
  - intros detail Hdetail Htruthy. unfold layer_value.
    rewrite lookup_delete_ne by done. by rewrite Hdetail, Htruthy.
Qed.


Lemma throttled_quiet (last : Q) (evs : list event) :
  (forall seen, emission_times seen evs = []) -> throttled last evs.
Proof. intros Hq seen. rewrite Hq. split; constructor. Qed.

Lemma throttled_skip (last : Q) (e : event) (evs : list event) :
  (forall seen, emission_times seen (e :: evs) = emission_times seen evs) ->
  throttled last evs -> throttled last (e :: evs).
Proof. intros He Ht seen. rewrite He. apply Ht. Qed.

Lemma push_loop_throttled :
  (forall i j : nat, (i <= j)%nat -> (time_time i <= time_time j)%Q) ->
  forall (lines : list record) (layers : list (json * json)) (last : Q) s,
    (last <= time_time (ticks s))%Q ->
    exists r s' evs,
      push_loop lines layers last s = (r, s') /\
      trace s' = trace s ++ evs /\
      throttled last evs.
Proof.
  intros Hmono lines.
  induction lines as [|progress lines IH]; intros layers last s Hlast.
  - exists (Ret tt), s, []. cbn. rewrite app_nil_r.
    repeat split; constructor.
  - cbn [push_loop]. unfold bind at 1. unfold emit.
    set (s1 := logged s [EvPushRecord progress]).
    destruct (progress !! "error") as [err|].
    { eexists _, _, [EvPushRecord progress; EvLog ERROR (MsgJson err) "failed"].
      unfold bind, log, emit, sys_exit, raise. cbn.
      split; [reflexivity|]. split; [trace_eq|].
      by apply throttled_quiet. }
    destruct (progress !! "id") as [id|].
    2:{ destruct (IH layers last s1 Hlast) as (r & s' & evs & Hrun & Htr & Hthr).
        exists r, s', (EvPushRecord progress :: evs).
        split; [exact Hrun|]. split; [rewrite Htr; trace_eq|].
        by apply throttled_skip. }
    unfold bind at 1.
    destruct (layer_value progress s1) as [[v| e |] s2] eqn:Hv.
    2,3: (assert (s2 = s1) as ->
            by (unfold layer_value, getitem, ret, raise in Hv;
                repeat case_match; congruence);
          eexists _, _, [EvPushRecord progress];
          split; [reflexivity|]; split; [trace_eq|];
          by apply throttled_quiet).
    assert (s2 = s1) as ->
      by (unfold layer_value, getitem, ret, raise in Hv; repeat case_match; congruence).
    unfold bind at 1. unfold setitem.
    destruct (hashable id).
    2:{ eexists _, _, [EvPushRecord progress].
        split; [reflexivity|]. split; [trace_eq|]. by apply throttled_quiet. }
    cbn [ret]. unfold bind at 1. unfold time_now at 1. cbn [ticks s1 logged].
    set (now := time_time (ticks s)).
    set (s3 := State _ _ _ _ _ _).
    destruct (Qle_bool (now - last) (3 # 2)) eqn:Hcmp; cbn [negb].
    + assert (Hlast3 : (last <= time_time (ticks s3))%Q).
      { cbn. eapply Qle_trans; [exact Hlast|]. apply Hmono. lia. }
      destruct (IH (dict_set layers id v) last s3 Hlast3)
        as (r & s' & evs & Hrun & Htr & Hthr).
      exists r, s', ([EvPushRecord progress; EvTime now] ++ evs).
      split; [exact Hrun|].
      split; [rewrite Htr; trace_eq|].
      intros seen. cbn. apply Hthr.
    + unfold bind at 1. unfold bind at 1. unfold time_now at 1.
      change (ticks (logged s3 [EvProgress (dict_set layers id v)])) with (S (ticks s)).
      set (t := time_time (S (ticks s))).
      set (s4 := State _ _ _ _ _ _).
      assert (Hnow : apart last now).
      { unfold apart. apply Qnot_le_lt. intros Hle.
        assert (now - last <= 3 # 2)%Q as Hle' by lra.
        apply Qle_bool_iff in Hle'. congruence. }
      assert (Hnt : (now <= t)%Q) by (apply Hmono; lia).
      assert (Ht4 : (t <= time_time (ticks s4))%Q) by (cbn; apply Hmono; lia).
      destruct (IH (dict_set layers id v) t s4 Ht4)
        as (r & s' & evs & Hrun & Htr & Hthr).
      exists r, s', ([EvPushRecord progress; EvTime now;
                      EvProgress (dict_set layers id v); EvTime t] ++ evs).
      split; [exact Hrun|].
      split; [rewrite Htr; trace_eq|].
      intros seen. cbn. destruct (Hthr (Some t)) as [Hall Hsorted].
      split.
      * constructor; [exact Hnow|].
        eapply Forall_impl; [exact Hall|]. unfold apart in *. intros x Hx. lra.
      * constructor; [exact Hsorted|].
        eapply Forall_impl; [exact Hall|]. unfold apart. intros x Hx. lra.
Qed.
End PushProperties.


Section ThrottleProperties.
Context {Mixin : Type} {D : Detectors Mixin} {W : Host Tree} {K : Docker}.
Implicit Types (s : state) (self : Repo2Docker Mixin).

Lemma in_window_late (a : Q) (times : list Q) :
  Forall (fun t => (a + (3 # 2) < t)%Q) times -> in_window a times = [].
Proof.
  induction 1 as [|t times Ht _ IH]; [done|].
  unfold in_window in *. cbn [List.filter].
  destruct (Qle_bool t (a + (3 # 2))) eqn:Hle.
  - apply Qle_bool_iff in Hle. lra.
  - by rewrite andb_false_r.
Qed.

Lemma in_window_at_most_one (times : list Q) :
  StronglySorted apart times ->
  forall a, (length (in_window a times) <= 1)%nat.
Proof.
  induction 1 as [|t times _ IH Hall]; intros a; [cbn; lia|].
  unfold in_window. cbn [List.filter].
  destruct (Qle_bool a t && Qle_bool t (a + (3 # 2))) eqn:Hin; [|apply IH].
  apply andb_true_iff in Hin as [Hat _]. apply Qle_bool_iff in Hat.
  fold (in_window a times). rewrite in_window_late; [cbn; lia|].
  eapply Forall_impl; [exact Hall|]. unfold apart. intros x Hx. lra.
Qed.

(** C6.  With a clock that does not run backwards, the readings of
    [time.time()] at which [push_image] emits the layer snapshot are more
    than 1.5 seconds after the reading taken before the stream and more
    than 1.5 seconds apart from each other, however many records arrive in
    between: no window of 1.5 seconds holds more than one emission. *)
Theorem push_progress_is_throttled self s :
  (forall i j : nat, (i <= j)%nat -> (time_time i <= time_time j)%Q) ->
  exists r s' evs,
    push_image self s = (r, s') /\
    trace s' = trace s ++ evs /\
    Forall (apart (time_time (ticks s))) (emission_times None evs) /\
    StronglySorted apart (emission_times None evs) /\
    forall a, (length (in_window a (emission_times None evs)) <= 1)%nat.
Proof.
  intros Hmono. unfold push_image, bind, time_now, emit.
  set (t0 := time_time (ticks s)).
  set (s1 := logged _ _).
  assert (Ht0 : (t0 <= time_time (ticks s1))%Q) by (cbn; apply Hmono; lia).
  destruct (push_loop_throttled Hmono (push_stream (output_image_spec self)) [] t0 s1 Ht0)
    as (r & s' & evs & Hrun & Htr & Hthr).
  exists r, s', ([EvTime t0; EvPush (output_image_spec self)] ++ evs).
  split; [exact Hrun|]. split; [rewrite Htr; trace_eq|].
  destruct (Hthr (Some t0)) as [Hall Hsorted]. cbn.
  split; [exact Hall|]. split; [exact Hsorted|].
  by apply in_window_at_most_one.
Qed.
End ThrottleProperties.


(** ** [run_image] *)

Section RunProperties.
Context {Mixin : Type} {D : Detectors Mixin} {W : Host Tree} {K : Docker}.
Implicit Types (s : state) (self : Repo2Docker Mixin).

Lemma emits_log_lines P lv (lines : list string) phase :
  (forall line, P (EvLog lv (MsgStr line) phase)) -> emits P (log_lines lv lines phase).
Proof.
  intros HP. induction lines as [|line lines IH]; cbn [log_lines].
  - apply emits_ret.
  - apply emits_bind; [by apply emits_emit|done].
Qed.

Lemma emits_reload : emits supervises reload.
Proof.
  unfold reload. apply emits_bind; [by apply emits_silent|].
  intros a. apply emits_bind; [by apply emits_emit|]. intros _. apply emits_ret.
Qed.

Lemma emits_wait_created fuel : forall container, emits supervises (wait_created fuel container).
Proof.
  induction fuel as [|fuel IH]; intros container; cbn [wait_created];
    destruct (String.eqb _ _); auto with emits.
  apply emits_bind; [by apply emits_emit|]. intros _.
  apply emits_bind; [apply emits_reload|]. done.
Qed.

Lemma emits_stream_logs : emits supervises stream_logs.
Proof.
  unfold stream_logs. apply emits_bind; [by apply emits_emit|]. intros _.
  apply emits_bind; [by apply emits_log_lines|]. intros _.
  destruct (snd log_stream); auto with emits.
Qed.

Lemma emits_cleanup : emits supervises cleanup.
Proof.
  unfold cleanup. apply emits_bind; [apply emits_reload|]. intros container.
  apply emits_bind.
  - destruct (String.eqb _ _); [|apply emits_ret].
    apply emits_bind; [by apply emits_emit|]. intros _. by apply emits_emit.
  - intros _. apply emits_bind; [by apply emits_emit|]. intros _. apply emits_raise.
Qed.

Lemma runs_supervises (evs : list event) : Forall supervises evs -> runs evs = [].
Proof. induction 1 as [|e evs He _ IH]; [done|]. by destruct e. Qed.

Lemma free_ports_supervises (evs : list event) : Forall supervises evs -> free_ports evs = [].
Proof. induction 1 as [|e evs He _ IH]; [done|]. by destruct e. Qed.

(** C10.  [run_image] launches one container.  With an explicit command
    the port mapping is empty and the command is the one supplied.  With
    none, the mapping has exactly one entry, from ['<port>/tcp'] to the
    same [<port>], where [<port>] is the free port obtained for it (by the
    call of [_get_free_port] at line 317), and the command is the default
    notebook command with [--port <port>]. *)
Theorem run_image_ports fuel self s :
  exists r s' evs,
    run_image fuel self s = (r, s') /\
    trace s' = trace s ++ evs /\
    match run_cmd self with
    | [] =>
        let port := str_of_Z (bound_port (S (probes s))) in
        runs evs =
          [(output_image_spec self,
            ({[ (port ++ "/tcp")%string := port ]} : gmap string string),
            ["jupyter"; "notebook"; "--ip"; "0.0.0.0"; "--port"; port])] /\
        free_ports evs = [bound_port (probes s); bound_port (S (probes s))]
    | _ :: _ =>
        runs evs = [(output_image_spec self, (∅ : gmap string string), run_cmd self)] /\
        free_ports evs = [bound_port (probes s)]
    end.
Proof.
  assert (Hrest : forall container, emits supervises
            (do container' <- wait_created fuel container;
             try_finally stream_logs cleanup)).
  { intros container. apply emits_bind; [apply emits_wait_created|].
    intros _. apply emits_try_finally; [apply emits_stream_logs|apply emits_cleanup]. }
  unfold run_image. unfold bind at 1. unfold _get_free_port at 1.
  destruct (run_cmd self) as [|word words] eqn:Hcmd.
  - unfold bind at 1. unfold bind at 1. unfold _get_free_port at 1. cbn [ret fst snd].
    unfold bind at 1. unfold containers_run, bind at 1, emit, next_inspection.
    cbn [probes inspections logged].
    match goal with |- context [bind _ _ ?s0] => set (s3 := s0) end.
    destruct (Hrest (inspect (inspections s)) s3) as (evs & Htr & Hall).
    match goal with |- context [bind ?m ?k s3] =>
      destruct (bind m k s3) as [r s'] eqn:Hrun end.
    cbn [snd] in Htr.
    eexists r, s', (_ :: _ :: _ :: evs).
    split; [reflexivity|]. split; [rewrite Htr; trace_eq|].
    pose proof (runs_supervises evs Hall) as Hruns.
    pose proof (free_ports_supervises evs Hall) as Hports.
    unfold runs, free_ports in *. cbn [omap list_omap]. by rewrite Hruns, Hports.
  - unfold bind at 1. cbn [ret fst snd].
    unfold bind at 1. unfold containers_run, bind at 1, emit, next_inspection.
    cbn [probes inspections logged].
    match goal with |- context [bind _ _ ?s0] => set (s3 := s0) end.
    destruct (Hrest (inspect (inspections s)) s3) as (evs & Htr & Hall).
    match goal with |- context [bind ?m ?k s3] =>
      destruct (bind m k s3) as [r s'] eqn:Hrun end.
    cbn [snd] in Htr.
    eexists r, s', (_ :: _ :: evs).
    split; [reflexivity|]. split; [rewrite Htr; trace_eq|].
    pose proof (runs_supervises evs Hall) as Hruns.
    pose proof (free_ports_supervises evs Hall) as Hports.
    unfold runs, free_ports in *. cbn [omap list_omap]. by rewrite Hruns, Hports.
Qed.

Lemma engine_state_app (known : option attrs) (a b : list event) :
  engine_state known (a ++ b) = engine_state (engine_state known a) b.
Proof.
  revert known. induction a as [|e a IH]; intros known; [done|].
  destruct e; cbn; apply IH.
Qed.

Lemma engine_state_line_events (known : option attrs) lv phase (lines : list string) :
  engine_state known (line_events lv phase lines) = known.
Proof. induction lines as [|line lines IH]; [done|]. exact IH. Qed.

(** The log-streaming step and its [finally] block, from the state [s] in
    which the stream is opened.  However the stream ends, the container is
    removed (the last call made) and the process ends with [sys.exit] of
    the exit code in the report [a] that the [reload] of the [finally]
    block obtained: a container still running in [a] is killed after that
    report was taken, and the engine's later state is not read. *)
Lemma supervision_ends_in_removal s :
  let a := inspect (inspections s) in
  let running := String.eqb (status a) "running" in
  exists s' evs,
    try_finally stream_logs cleanup s = (Exc (SystemExit (ExitCode a)), s') /\
    trace s' = trace s ++ evs /\
    last evs = Some EvRemove /\
    (EvKill ∈ evs <-> running = true) /\
    engine_state None evs = Some (if running then after_kill else a).
Proof.
  intros a running.
  set (lines := line_events INFO "running" (fst log_stream)).
  set (stop := if running
               then [EvLog INFO (MsgStr ("Stopping container..." ++ nl)) "running"; EvKill]
               else []).
  exists (State (next_oid s) (ticks s) (probes s) (S (inspections s)) (cwd s)
                (trace s ++ [EvLogs] ++ lines ++ [EvReload a] ++ stop ++ [EvRemove])),
         ([EvLogs] ++ lines ++ [EvReload a] ++ stop ++ [EvRemove]).
  split.
  { unfold try_finally, stream_logs, bind, emit. rewrite log_lines_run.
    assert (Hfin : forall s0, inspections s0 = inspections s ->
              cleanup s0 =
              (Exc (SystemExit (ExitCode a)),
               State (next_oid s0) (ticks s0) (probes s0) (S (inspections s0)) (cwd s0)
                     (trace s0 ++ [EvReload a] ++ stop ++ [EvRemove]))).
    { intros s0 Hs0. unfold cleanup, reload, bind, next_inspection, emit, log, emit,
        sys_exit, raise, ret. rewrite Hs0. fold a. cbn [logged status].
      subst stop. fold running.
      destruct running; unfold logged; cbn; by rewrite <- ?app_assoc. }
    destruct (snd log_stream) as [e|]; unfold raise, ret; rewrite Hfin by done;
      unfold logged; cbn; by rewrite <- ?app_assoc. }
  split; [done|].
  split; [by rewrite !app_assoc, last_snoc|].
  split.
  - subst stop lines. rewrite !elem_of_app, !list_elem_of_singleton.
    destruct running.
    + split; [done|]. intros _. do 3 right. left. apply elem_of_cons. right.
      apply list_elem_of_singleton. done.
    + split; [|done]. intros [?|[Hin|[?|[Hin|?]]]]; try done.
      * unfold line_events in Hin. apply list_elem_of_fmap in Hin as (? & ? & ?). done.
      * by apply elem_of_nil in Hin.
  - rewrite !engine_state_app.
    change (engine_state None [EvLogs]) with (@None attrs).
    subst lines. rewrite engine_state_line_events.
    subst stop. by destruct running.
Qed.
End RunProperties.


(** ** [start] *)

Section StartProperties.
Context {Mixin : Type} {D : Detectors Mixin} {W : Host Tree} {K : Docker}.
Implicit Types (s : state) (self : Repo2Docker Mixin).

Local Ltac emits_go :=
  repeat first
    [ apply emits_ret | apply emits_raise | apply emits_hang
    | apply emits_emit; exact I
    | apply emits_silent; reflexivity
    | apply emits_log_lines; intros; exact I
    | apply emits_bind; [|intros ?]
    | match goal with |- emits _ (if ?c then _ else _) => destruct c end
    | match goal with |- emits _ (match ?c with _ => _ end) => destruct c end ].

Lemma emits_run_logged cmd dir capture lv : emits upstream (run_logged cmd dir capture lv).
Proof. unfold run_logged. emits_go. Qed.

Lemma emits_fetch self url ref path : emits upstream (fetch self url ref path).
Proof.
  unfold fetch, _clone, _unshallow, _contains, _checkout, log.
  repeat first [ apply emits_run_logged | progress emits_go ].
Qed.

Lemma emits_new (m : Mixin) parent : emits upstream (new m parent).
Proof. unfold new. emits_go. Qed.

Lemma emits_compose_loop (rest : list Mixin) parent :
  forall image, emits upstream (compose_loop image rest parent).
Proof.
  induction rest as [|m rest IH]; intros image; cbn [compose_loop]; [apply emits_ret|].
  apply emits_bind; [apply emits_new|]. intros other.
  apply emits_bind; [unfold call_compose_with; emits_go|]. intros image'. apply IH.
Qed.

Lemma emits_compose (chain : list Mixin) parent : emits upstream (compose chain parent).
Proof.
  destruct chain as [|first rest]; cbn [compose]; [apply emits_raise|].
  apply emits_bind; [apply emits_new|]. intros image. apply emits_compose_loop.
Qed.

Lemma emits_select_loop self (catalog : list (list Mixin)) :
  forall picked bp, emits upstream (select_loop catalog self picked bp).
Proof.
  induction catalog as [|chain catalog IH]; intros picked bp; cbn [select_loop];
    [apply emits_ret|].
  apply emits_bind; [apply emits_compose|]. intros b.
  apply emits_bind; [unfold call_detect; emits_go|]. intros found.
  destruct found; [apply emits_ret|apply IH].
Qed.

Lemma emits_build_loop (records : list record) : emits upstream (build_loop records).
Proof.
  induction records as [|l records IH]; cbn [build_loop]; [apply emits_ret|].
  unfold log, sys_exit.
  apply emits_bind; [by apply emits_emit|]. intros _.
  destruct (l !! "stream"); [emits_go; exact IH|].
  destruct (l !! "error"); [emits_go|].
  destruct (has_key "status" l); emits_go; exact IH.
Qed.

Lemma emits_push_loop (lines : list record) :
  forall layers last, emits downstream (push_loop lines layers last).
Proof.
  induction lines as [|progress lines IH]; intros layers last; cbn [push_loop];
    [apply emits_ret|].
  unfold log, sys_exit.
  apply emits_bind; [by apply emits_emit|]. intros _.
  destruct (progress !! "error"); [emits_go|].
  destruct (progress !! "id"); [|apply IH].
  apply emits_bind; [unfold layer_value, getitem; emits_go|]. intros v.
  apply emits_bind; [unfold setitem; emits_go|]. intros layers'.
  apply emits_bind.
  { intros s. exists [EvTime (time_time (ticks s))]. split; [done|]. by constructor. }
  intros now. destruct (negb _); [|apply IH].
  apply emits_bind; [by apply emits_emit|]. intros _.
  apply emits_bind; [|intros; apply IH].
  intros s. exists [EvTime (time_time (ticks s))]. split; [done|]. by constructor.
Qed.

Lemma emits_push_image self : emits downstream (push_image self).
Proof.
  unfold push_image.
  apply emits_bind.
  { intros s. exists [EvTime (time_time (ticks s))]. split; [done|]. by constructor. }
  intros t. apply emits_bind; [by apply emits_emit|]. intros _. apply emits_push_loop.
Qed.

Lemma supervises_downstream (e : event) : supervises e -> downstream e.
Proof. by destruct e. Qed.

Lemma emits_get_free_port : emits downstream _get_free_port.
Proof. intros s. exists [EvFreePort (bound_port (probes s))]. split; [done|]. by constructor. Qed.

Lemma emits_run_image fuel self : emits downstream (run_image fuel self).
Proof.
  unfold run_image.
  apply emits_bind; [apply emits_get_free_port|]. intros port.
  apply emits_bind.
  { destruct (run_cmd self); [|apply emits_ret].
    apply emits_bind; [apply emits_get_free_port|]. intros p. apply emits_ret. }
  intros config.
  apply emits_bind; [unfold containers_run, next_inspection; emits_go|]. intros container.
  apply emits_bind.
  { eapply emits_weaken; [apply supervises_downstream|apply emits_wait_created]. }
  intros _. eapply emits_weaken; [apply supervises_downstream|].
  apply emits_try_finally; [apply emits_stream_logs|apply emits_cleanup].
Qed.


Lemma phased_bind {A B} c path (m : M A) (k : A -> M B) :
  emits upstream m -> (forall a, phased c path (k a)) -> phased c path (bind m k).
Proof.
  intros Hm Hk s. destruct (Hm s) as (evs & Htr & Hall). unfold bind.
  destruct (m s) as [[a|e|] s1]; cbn [snd] in Htr |- *.
  - destruct (Hk a s1) as (pre & mid & post & Htr' & Hpre & Hpost & Hmid).
    exists (evs ++ pre), mid, post. rewrite Htr', Htr, <- !app_assoc.
    split; [done|]. split; [by apply Forall_app|]. done.
  - exists evs, [], []. rewrite Htr, !app_nil_r. repeat split; auto.
  - exists evs, [], []. rewrite Htr, !app_nil_r. repeat split; auto.
Qed.

Lemma phased_cleanup {B} c path (k : M B) :
  emits downstream k ->
  phased c path ((if c then rmtree path else ret tt);; k).
Proof.
  intros Hk s. unfold bind, rmtree, emit, ret. destruct c.
  - destruct (Hk (logged s [EvRmtree path])) as (evs & Htr & Hall).
    exists [], [EvRmtree path], evs. rewrite Htr. cbn.
    split; [by rewrite <- app_assoc|]. repeat split; auto.
  - destruct (Hk s) as (evs & Htr & Hall).
    exists [], [], evs. rewrite Htr. repeat split; auto.
Qed.

Lemma start_phases fuel self :
  phased (cleanup_checkout self)
         (if String.eqb (repo_type self) "local" then repo self
          else path_join (git_workdir self) uuid4)
         (start fuel self).
Proof.
  assert (Htail : forall checkout_path selected,
    phased (cleanup_checkout self) checkout_path
      (do description <- call_render (fst selected);
       log DEBUG (MsgStr description) "building";;
       (if build self then build_stage self (fst selected) (snd selected) else ret tt);;
       (if cleanup_checkout self then rmtree checkout_path else ret tt);;
       (if push self then push_image self else ret tt);;
       (if run self then run_image fuel self else ret tt))).
  { intros checkout_path selected.
    apply phased_bind; [unfold call_render; apply emits_bind; [by apply emits_emit|];
                        intros; apply emits_ret|].
    intros description. apply phased_bind; [by apply emits_emit|]. intros _.
    apply phased_bind.
    { destruct (build self); [|apply emits_ret]. unfold build_stage, log.
      apply emits_bind; [destruct (snd selected); [apply emits_ret|apply emits_raise]|].
      intros bp_name. apply emits_bind; [by apply emits_emit|]. intros _.
      apply emits_bind; [by apply emits_emit|]. intros _. apply emits_build_loop. }
    intros _. apply phased_cleanup.
    apply emits_bind; [destruct (push self); [apply emits_push_image|apply emits_ret]|].
    intros _. destruct (run self); [apply emits_run_image|apply emits_ret]. }
  assert (Hrest : forall checkout_path,
    phased (cleanup_checkout self) checkout_path
      (chdir checkout_path;;
       do selected <- select self;
       do description <- call_render (fst selected);
       log DEBUG (MsgStr description) "building";;
       (if build self then build_stage self (fst selected) (snd selected) else ret tt);;
       (if cleanup_checkout self then rmtree checkout_path else ret tt);;
       (if push self then push_image self else ret tt);;
       (if run self then run_image fuel self else ret tt))).
  { intros checkout_path. apply phased_bind.
    { intros s. exists [EvChdir checkout_path]. split; [done|]. by constructor. }
    intros _. apply phased_bind; [|intros selected; apply Htail].
    unfold select. apply emits_bind; [apply emits_compose|].
    intros picked. apply emits_select_loop. }
  unfold start. destruct (String.eqb (repo_type self) "local").
  - intros s. unfold bind at 1. unfold ret at 1. apply Hrest.
  - intros s. unfold bind at 1. unfold bind at 1. unfold ret at 1.
    destruct (emits_fetch self (repo self) (ref self)
                (path_join (git_workdir self) uuid4) s) as (evs & Htr & Hall).
    destruct (fetch _ _ _ _ s) as [[[]|e|] s1]; cbn [snd] in Htr |- *.
    + destruct (Hrest (path_join (git_workdir self) uuid4) s1)
        as (pre & mid & post & Htr' & Hpre & Hpost & Hmid).
      exists (evs ++ pre), mid, post. rewrite Htr', Htr, <- !app_assoc.
      split; [done|]. split; [by apply Forall_app|]. done.
    + exists evs, [], []. rewrite Htr, !app_nil_r. repeat split; auto.
    + exists evs, [], []. rewrite Htr, !app_nil_r. repeat split; auto.
Qed.

Lemma initialize_attributes (traits : Repo2Docker Mixin) (args : Args) s self s1 :
  initialize traits args s = (Ret self, s1) ->
  git_workdir self = git_workdir traits /\
  repo_type self = (if path_exists (arg_repo args) then "local" else "remote") /\
  cleanup_checkout self = (if path_exists (arg_repo args) then false else arg_clean args).
Proof.
  unfold initialize, bind. intros Hinit.
  repeat case_match; try discriminate; by injection Hinit as <- _.
Qed.

(** C7 (as amended).  In a whole invocation ([initialize], then [start])
    the checkout is removed at most once; it is removed only when the
    source is remote (the path given does not exist locally) and cleaning
    was not switched off, and what is removed is the fresh directory under
    [git_workdir], never the source given; the removal comes after the
    calls of the fetch, selection and build stages and before every call
    of the publish and run stages. *)
Theorem checkout_removed_once_after_build fuel (traits : Repo2Docker Mixin) (args : Args) :
  exists pre mid post,
    trace (main fuel traits args).2 = pre ++ mid ++ post /\
    Forall upstream pre /\
    Forall downstream post /\
    (mid = [] \/
     (mid = [EvRmtree (path_join (git_workdir traits) uuid4)] /\
      path_exists (arg_repo args) = false /\
      arg_clean args = true)).
Proof.
  unfold main, bind.
  assert (Hinit : emits upstream (initialize traits args)).
  { unfold initialize, default_image_spec.
    assert (Ht : emits upstream time_now).
    { intros s. exists [EvTime (time_time (ticks s))]. split; [done|]. by constructor. }
    apply emits_bind; [|intros; apply emits_ret].
    destruct (arg_image_name args) as [image_name|];
      [destruct (String.eqb image_name "")|];
      first [apply emits_ret | apply emits_bind; [exact Ht|intros; apply emits_ret]]. }
  destruct (Hinit init_state) as (evs & Htr & Hall).
  destruct (initialize traits args init_state) as [[self|e|] s1] eqn:Hself;
    cbn [snd] in Htr |- *; cbn [trace init_state app] in Htr.
  - destruct (start_phases fuel self s1) as (pre & mid & post & Htr' & Hpre & Hpost & Hmid).
    exists (evs ++ pre), mid, post. rewrite Htr', Htr, <- !app_assoc.
    split; [done|]. split; [by apply Forall_app|]. split; [done|].
    destruct Hmid as [->|[-> Hclean]]; [by left|right].
    destruct (initialize_attributes traits args init_state self s1 Hself)
      as (Hwd & Htype & Hclean').
    rewrite Htype, Hwd in *. rewrite Hclean' in Hclean.
    destruct (path_exists (arg_repo args)); [discriminate|]. done.
  - exists evs, [], []. rewrite Htr, !app_nil_r. repeat split; auto.
  - exists evs, [], []. rewrite Htr, !app_nil_r. repeat split; auto.
Qed.
End StartProperties.


(** * Further properties *)

(** ** How a sequence of steps ends *)

Section Steps.
Context {Mixin : Type} {D : Detectors Mixin}.
Implicit Types (s : state).

Lemma bind_ret {A B} (m : M A) (k : A -> M B) s (a : A) s1 :
  m s = (Ret a, s1) -> bind m k s = k a s1.
Proof. intros Hm. unfold bind. by rewrite Hm. Qed.

Lemma bind_exc {A B} (m : M A) (k : A -> M B) s (e : exn) s1 :
  m s = (Exc e, s1) -> bind m k s = (Exc e, s1).
Proof. intros Hm. unfold bind. by rewrite Hm. Qed.

Lemma bind_ret_inv {A B} (m : M A) (k : A -> M B) s (b : B) s' :
  bind m k s = (Ret b, s') ->
  exists a s1, m s = (Ret a, s1) /\ k a s1 = (Ret b, s').
Proof.
  unfold bind. destruct (m s) as [[a|e|] s1]; intros Hk; try discriminate.
  by exists a, s1.
Qed.
End Steps.

(** ** [fetch], continued *)

Section FetchOutcome.
Context {Mixin : Type} {D : Detectors Mixin} {W : Host Tree}.
Implicit Types (s : state) (self : Repo2Docker Mixin).

(** X1.  [fetch] returns exactly when a revision is given, the clone
    succeeds, the revision is found or the unshallow step succeeds, and the
    hard reset succeeds; a failed probe alone is never an error.  Without
    a revision ([--ref] left out) it never returns: it ends with the
    [RuntimeError] of a failed clone or, after the clone, with the
    [TypeError] raised at the probe. *)
Theorem fetch_returns_iff self url ref path s :
  let ok cmd dir := (execute_cmd cmd dir (json_logs self)).2 in
  ((fetch self url ref path s).1 = Ret tt <->
   ref <> None /\
   ok (clone_command (Some 50%nat) url path) None = true /\
   (ok (contains_command ref) (Some path) = true \/
    ok unshallow_command (Some path) = true) /\
   ok (checkout_command ref) (Some path) = true) /\
  (ref = None ->
   (fetch self url ref path s).1 =
   if ok (clone_command (Some 50%nat) url path) None then Exc bad_argument
   else Exc (RuntimeError ("Failed to clone " ++ url ++ "."))).
Proof.
  intros ok. destruct (fetch_summary self url ref path s) as (evs & Hrun & _).
  cbv zeta in Hrun. rewrite Hrun. cbn [fst]. subst ok. cbn beta.
  split; [|by intros ->].
  destruct (execute_cmd (clone_command (Some 50%nat) url path) None (json_logs self)).2,
           (execute_cmd (contains_command ref) (Some path) (json_logs self)).2,
           (execute_cmd unshallow_command (Some path) (json_logs self)).2,
           (execute_cmd (checkout_command ref) (Some path) (json_logs self)).2;
    destruct ref as [rev|]; cbn [orb];
    (split;
     [ intros Hr; first [discriminate | repeat split; auto; discriminate]
     | intros (Href & Ha & Hb & Hc);
       first [reflexivity | discriminate | done | destruct Hb; discriminate] ]).
Qed.
End FetchOutcome.

(** ** The build loop, continued *)

Section BuildOutcome.
Context {Mixin : Type} {D : Detectors Mixin}.
Implicit Types (s : state) (l : record).

Lemma logs_app (a b : list event) : logs (a ++ b) = logs a ++ logs b.
Proof. apply omap_app. Qed.

(** One round of the loop on a record that does not stop it: the record
    is taken and one message is logged, at level INFO in phase
    ['building']. *)
Lemma build_loop_step l (records : list record) s :
  halts_build l = false ->
  exists msg,
    build_loop (l :: records) s =
    build_loop records (logged s [EvBuildRecord l; EvLog INFO msg "building"]).
Proof.
  unfold halts_build, has_key. intros Hl. cbn [build_loop].
  unfold bind, emit, log, has_key.
  destruct (l !! "stream") as [text|] eqn:Hstream.
  - exists (MsgJson text). cbn. by rewrite logged_logged.
  - destruct (l !! "error") as [err|] eqn:Herr; [done|].
    destruct (l !! "status") as [st|] eqn:Hstatus; cbn; unfold emit;
      rewrite logged_logged; eexists; reflexivity.
Qed.

(** X2.  A build stream in which no record has an ['error'] key without a
    ['stream'] key is consumed to its end: the loop returns, every record
    has been taken in order, and exactly one message per record has been
    logged, each at level INFO in phase ['building']. *)
Theorem build_without_error_returns (records : list record) s :
  Forall (fun l => halts_build l = false) records ->
  exists s' evs,
    build_loop records s = (Ret tt, s') /\
    trace s' = trace s ++ evs /\
    consumed evs = records /\
    length (logs evs) = length records /\
    Forall (fun entry => entry.1.1 = INFO /\ entry.2 = "building") (logs evs).
Proof.
  intros Hall. revert s. induction Hall as [|l records Hl _ IH]; intros s.
  - exists s, []. cbn. rewrite app_nil_r. repeat split; constructor.
  - destruct (build_loop_step l records s Hl) as (msg & Hstep).
    destruct (IH (logged s [EvBuildRecord l; EvLog INFO msg "building"]))
      as (s' & evs & Hrun & Htr & Hcons & Hlen & Hlogs).
    exists s', ([EvBuildRecord l; EvLog INFO msg "building"] ++ evs).
    rewrite Hstep, Hrun. split; [done|].
    split; [by rewrite Htr; cbn; rewrite <- app_assoc|].
    rewrite consumed_app, logs_app, Hcons. cbn.
    split; [done|]. split; [by rewrite Hlen|]. by constructor.
Qed.
End BuildOutcome.

(** ** Selection, continued *)

Section SelectionEdges.
Context {Mixin : Type} {D : Detectors Mixin} {W : Host Tree}.
Implicit Types (s : state) (self : Repo2Docker Mixin).

(** One round of the selection loop on a non-empty chain. *)
Lemma select_loop_round self (first : Mixin) (rest : list Mixin)
    (catalog : list (list Mixin)) (picked : obj) (bp : option obj) s :
  exists b s1 evs,
    composed (Some self) (first :: rest) = Some (val b) /\
    trace s1 = trace s ++ evs /\
    instantiated evs = first :: rest /\
    cwd s1 = cwd s /\
    select_loop ((first :: rest) :: catalog) self picked bp s =
    if matches (Some self) (working_tree (cwd s)) (first :: rest)
    then (Ret (b, Some b), s1)
    else select_loop catalog self picked (Some b) s1.
Proof.
  destruct (compose_spec (Some self) first rest s)
    as (b & s1 & Hrun & Hval & _ & _ & _ & _ & Hcwd & evs1 & Htr1 & Hinst1 & _).
  set (found := detect (val b) (working_tree (cwd s))).
  exists b, (logged s1 [EvDetect b found]), (evs1 ++ [EvDetect b found]).
  split; [by unfold composed; rewrite Hval|].
  split; [by cbn; rewrite Htr1, app_assoc|].
  split; [by rewrite instantiated_app, Hinst1; cbn; rewrite app_nil_r|].
  split; [exact Hcwd|].
  assert (Hm : matches (Some self) (working_tree (cwd s)) (first :: rest) = found).
  { unfold matches, composed, found. by rewrite Hval. }
  rewrite Hm. cbn [select_loop]. unfold bind. rewrite Hrun, call_detect_run.
  subst found. unfold logged. rewrite Hcwd.
  by destruct (detect (val b) (working_tree (cwd s))).
Qed.

(** X3.  An empty chain in the catalog makes the selection fail with
    [IndexError] as soon as it is reached, whatever follows it: when no
    entry before it matches, the entries after it are never composed. *)
Theorem empty_chain_aborts_selection self (pre post : list (list Mixin))
    (picked : obj) (bp : option obj) s :
  Forall (fun chain => chain <> []) pre ->
  Forall (fun chain => matches (Some self) (working_tree (cwd s)) chain = false) pre ->
  exists s' evs,
    select_loop (pre ++ [] :: post) self picked bp s = (Exc IndexError, s') /\
    trace s' = trace s ++ evs /\
    instantiated evs = concat pre.
Proof.
  intros Hne. revert bp s. induction Hne as [|chain pre Hchain _ IH]; intros bp s Hno.
  - exists s, []. cbn. by rewrite app_nil_r.
  - destruct chain as [|first rest]; [done|].
    inversion Hno as [|? ? Hm Hno']; subst.
    destruct (select_loop_round self first rest (pre ++ [] :: post) picked bp s)
      as (b & s1 & evs1 & _ & Htr1 & Hinst1 & Hcwd & Hstep).
    rewrite Hm in Hstep. rewrite <- Hcwd in Hno'.
    destruct (IH (Some b) s1 Hno') as (s' & evs & Hrun & Htr & Hinst).
    exists s', (evs1 ++ evs). cbn [app]. rewrite Hstep, Hrun.
    split; [done|]. split; [by rewrite Htr, Htr1, app_assoc|].
    by rewrite instantiated_app, Hinst1, Hinst.
Qed.

(** When no entry matches, the loop variable [bp] is left bound to the
    buildpack composed from the last entry, while the default stays
    picked. *)
Lemma select_loop_no_match self (catalog : list (list Mixin)) :
  Forall (fun chain => chain <> []) catalog ->
  forall (picked : obj) (bp : option obj) s,
    Forall (fun chain => matches (Some self) (working_tree (cwd s)) chain = false) catalog ->
    exists bp' s',
      select_loop catalog self picked bp s = (Ret (picked, bp'), s') /\
      match last catalog with
      | Some chain => exists b, bp' = Some b /\ composed (Some self) chain = Some (val b)
      | None => bp' = bp
      end.
Proof.
  induction 1 as [|chain catalog Hchain Hne IH]; intros picked bp s Hno.
  - by exists bp, s.
  - destruct chain as [|first rest]; [done|].
    inversion Hno as [|? ? Hm Hno']; subst.
    destruct (select_loop_round self first rest catalog picked bp s)
      as (b & s1 & evs1 & Hb & _ & _ & Hcwd & Hstep).
    rewrite Hm in Hstep. rewrite <- Hcwd in Hno'.
    destruct (IH picked (Some b) s1 Hno') as (bp' & s' & Hrun & Hlast).
    exists bp', s'. rewrite Hstep. split; [exact Hrun|].
    destruct catalog as [|chain' catalog'].
    + cbn in Hlast |- *. exists b. by subst.
    + change (last ((first :: rest) :: chain' :: catalog'))
        with (last (chain' :: catalog')).
      destruct (last (chain' :: catalog')) eqn:Hl; [exact Hlast|].
      by apply last_None in Hl.
Qed.

(** X4.  The builder named in the log is not the one that builds: when no
    catalog entry matches, the default buildpack is picked and built, and
    the line ['Using ... builder'] carries the name of the buildpack
    composed from the last catalog entry. *)
Theorem build_log_names_last_entry self (chain : list Mixin) s :
  default_buildpack self <> [] ->
  Forall (fun chain => chain <> []) (buildpacks self) ->
  Forall (fun chain => matches (Some self) (working_tree (cwd s)) chain = false)
         (buildpacks self) ->
  last (buildpacks self) = Some chain ->
  exists dflt b s',
    select self s = (Ret (dflt, Some b), s') /\
    composed (Some self) (default_buildpack self) = Some (val dflt) /\
    composed (Some self) chain = Some (val b) /\
    forall s1, exists s2,
      build_stage self dflt (Some b) s1 =
      build_loop (bp_build (val dflt) (output_image_spec self)) s2 /\
      trace s2 =
        trace s1 ++ [EvLog INFO (MsgStr ("Using " ++ name (val b) ++ " builder" ++ nl))
                           "building";
                     EvBuild dflt (output_image_spec self)].
Proof.
  intros Hdef Hcat Hno Hlast.
  destruct (default_buildpack self) as [|first rest] eqn:Hd; [done|].
  destruct (compose_spec (Some self) first rest s)
    as (dflt & s0 & Hrun & Hval & _ & _ & _ & _ & Hcwd & _).
  rewrite <- Hcwd in Hno.
  destruct (select_loop_no_match self (buildpacks self) Hcat dflt None s0 Hno)
    as (bp' & s' & Hloop & Hbp).
  rewrite Hlast in Hbp. destruct Hbp as (b & -> & Hb).
  exists dflt, b, s'.
  split; [by unfold select, bind; rewrite Hd, Hrun|].
  split; [by unfold composed; rewrite Hval|]. split; [exact Hb|].
  intros s1. eexists. split; [reflexivity|]. cbn. by rewrite <- app_assoc.
Qed.
End SelectionEdges.

(** ** [push_image], continued *)

Section PushOutcome.
Context {Mixin : Type} {D : Detectors Mixin} {W : Host Tree} {K : Docker}.
Implicit Types (s : state) (progress : record) (layers : list (json * json)).

Lemma pushed_app (a b : list event) : pushed (a ++ b) = pushed a ++ pushed b.
Proof. apply omap_app. Qed.

Lemma dict_set_keeps (P : json -> Prop) layers (k v : json) :
  Forall (fun entry => P entry.1) layers -> P k ->
  Forall (fun entry => P entry.1) (dict_set layers k v).
Proof.
  intros Hall Hk. induction Hall as [|[k' v'] layers Hk' Hall IH]; cbn [dict_set].
  - by repeat constructor.
  - destruct (key_eqb k' k); constructor; first [exact Hk' | exact Hall | exact IH].
Qed.

Lemma dict_set_distinct layers (k v : json) :
  distinct_ids layers -> distinct_ids (dict_set layers k v).
Proof.
  unfold distinct_ids. induction 1 as [|[k' v'] layers Hs IH Hall]; cbn [dict_set].
  - repeat constructor.
  - destruct (key_eqb k' k) eqn:Hk.
    + constructor; [exact Hs|exact Hall].
    + constructor; [exact IH|].
      by apply (dict_set_keeps (fun key => key_eqb k' key = false)).
Qed.



Lemma push_loop_round progress (lines : list record) layers (last : Q) s :
  push_ok progress = true ->
  exists layers' last' s1 evs,
    push_loop (progress :: lines) layers last s = push_loop lines layers' last' s1 /\
    trace s1 = trace s ++ evs /\
    pushed evs = [progress] /\
    logs evs = [] /\
    forall taken, (length (snapshots taken evs) <= 1)%nat.
Proof.
  unfold push_ok, has_key. intros Hok. cbn [push_loop].
  unfold bind at 1. unfold emit.
  destruct (progress !! "error") as [err|]; [done|]. cbn [negb andb] in Hok.
  destruct (progress !! "id") as [id|].
  2:{ exists layers, last, (logged s [EvPushRecord progress]), [EvPushRecord progress].
      repeat split; auto; intros taken; cbn; lia. }
  apply andb_true_iff in Hok as [Hhash Hval].
  assert (Hv : exists v, forall s0, layer_value progress s0 = (Ret v, s0)).
  { unfold layer_value, getitem.
    destruct (progress !! "progressDetail") as [detail|]; cbn in Hval.
    - destruct (truthy detail); [by exists detail|].
      destruct (progress !! "status") as [st|]; [by exists st|done].
    - destruct (progress !! "status") as [st|]; [by exists st|done]. }
  destruct Hv as (v & Hv).
  unfold bind at 1. rewrite Hv. unfold bind at 1. unfold setitem. rewrite Hhash.
  cbn [ret]. unfold bind at 1. unfold time_now at 1.
  destruct (negb _).
  - unfold bind at 1. unfold bind at 1. unfold time_now at 1. unfold emit.
    eexists _, _, _, [EvPushRecord progress; EvTime _; EvProgress _; EvTime _].
    split; [reflexivity|]. split; [cbn; by rewrite <- !app_assoc|].
    split; [done|]. split; [done|]. intros taken. cbn. lia.
  - eexists _, _, _, [EvPushRecord progress; EvTime _].
    split; [reflexivity|]. split; [cbn; by rewrite <- !app_assoc|].
    split; [done|]. split; [done|]. intros taken. cbn. lia.
Qed.

(** X5.  A push stream of records the loop gets past is consumed to its end:
    [push_image]'s loop returns, every record has been taken in order and
    no message has been logged besides the snapshots. *)
Theorem push_without_error_returns (lines : list record) layers (last : Q) s :
  Forall (fun progress => push_ok progress = true) lines ->
  exists s' evs,
    push_loop lines layers last s = (Ret tt, s') /\
    trace s' = trace s ++ evs /\
    pushed evs = lines /\
    logs evs = [].
Proof.
  intros Hall. revert layers last s.
  induction Hall as [|progress lines Hok _ IH]; intros layers last s.
  - exists s, []. cbn. by rewrite app_nil_r.
  - destruct (push_loop_round progress lines layers last s Hok)
      as (layers' & last' & s1 & evs1 & Hstep & Htr1 & Hp1 & Hl1 & _).
    destruct (IH layers' last' s1) as (s' & evs & Hrun & Htr & Hp & Hl).
    exists s', (evs1 ++ evs). rewrite Hstep, Hrun.
    split; [done|]. split; [by rewrite Htr, Htr1, app_assoc|].
    by rewrite pushed_app, logs_app, Hp1, Hl1, Hp, Hl.
Qed.


Lemma dict_set_keys layers (k v : json) :
  (dict_set layers k v).*1 = seen_once (layers.*1) k.
Proof.
  unfold seen_once. induction layers as [|[k' v'] layers IH]; [done|].
  cbn [dict_set fmap list_fmap existsb fst].
  destruct (key_eqb k' k); [done|]. cbn [orb fmap list_fmap fst].
  rewrite IH. by destruct (existsb _ _).
Qed.

Lemma layer_ids_snoc (taken : list record) progress :
  layer_ids (taken ++ [progress]) =
  match progress !! "id" with
  | Some id => seen_once (layer_ids taken) id
  | None => layer_ids taken
  end.
Proof.
  unfold layer_ids. rewrite omap_app. cbn [omap list_omap].
  destruct (progress !! "id"); [by rewrite fold_left_app|by rewrite app_nil_r].
Qed.

Lemma push_loop_snapshots (lines : list record) :
  forall layers (last : Q) s (taken : list record),
    distinct_ids layers ->
    layers.*1 = layer_ids taken ->
    exists evs,
      trace (push_loop lines layers last s).2 = trace s ++ evs /\
      Forall (fun shot => distinct_ids shot.2 /\ shot.2.*1 = layer_ids shot.1)
             (snapshots taken evs).
Proof.
  induction lines as [|progress lines IH]; intros layers last s taken Hd Hk.
  - exists []. cbn. rewrite app_nil_r. by split.
  - cbn [push_loop]. unfold bind at 1. unfold emit.
    set (s1 := logged s [EvPushRecord progress]).
    pose proof (layer_ids_snoc taken progress) as Hsnoc.
    destruct (progress !! "error") as [err|].
    { exists [EvPushRecord progress; EvLog ERROR (MsgJson err) "failed"].
      split; [|by cbn]. unfold bind, log, emit, sys_exit, raise. cbn [snd]. trace_eq. }
    destruct (progress !! "id") as [id|].
    2:{ rewrite <- Hsnoc in Hk.
        destruct (IH layers last s1 (taken ++ [progress]) Hd Hk) as (evs & Htr & Hall).
        exists (EvPushRecord progress :: evs). split; [rewrite Htr; trace_eq|done]. }
    unfold bind at 1.
    destruct (layer_value progress s1) as [[v| e |] s2] eqn:Hv;
      (assert (s2 = s1) as ->
         by (unfold layer_value, getitem, ret, raise in Hv; repeat case_match; congruence)).
    2,3: (exists [EvPushRecord progress]; split; [cbn [snd]; trace_eq|by cbn]).
    unfold bind at 1. unfold setitem.
    destruct (hashable id).
    2:{ exists [EvPushRecord progress]. split; [cbn [snd]; trace_eq|by cbn]. }
    cbn [ret]. unfold bind at 1. unfold time_now at 1.
    pose proof (dict_set_distinct layers id v Hd) as Hd'.
    assert (Hk' : (dict_set layers id v).*1 = layer_ids (taken ++ [progress]))
      by (by rewrite dict_set_keys, Hk, Hsnoc).
    destruct (negb _).
    + unfold bind at 1. unfold bind at 1. unfold time_now at 1. unfold emit.
      match goal with |- context [push_loop lines _ ?t ?s0] =>
        destruct (IH (dict_set layers id v) t s0 (taken ++ [progress]) Hd' Hk')
          as (evs & Htr & Hall);
        exists ([EvPushRecord progress; EvTime (time_time (ticks s1));
                 EvProgress (dict_set layers id v); EvTime t] ++ evs)
      end.
      split; [rewrite Htr; trace_eq|].
      cbn [app snapshots]. by constructor.
    + match goal with |- context [push_loop lines _ ?t ?s0] =>
        destruct (IH (dict_set layers id v) t s0 (taken ++ [progress]) Hd' Hk')
          as (evs & Htr & Hall);
        exists ([EvPushRecord progress; EvTime (time_time (ticks s1))] ++ evs)
      end.
      split; [rewrite Htr; trace_eq|].
      by cbn [app snapshots].
Qed.

(** X7.  Every snapshot [push_image] emits lists each layer once: its keys are
    the layer ids of the records taken from the stream so far, in the
    order in which they first appeared, and no two of its entries are for
    the same id, whatever the records of the stream are and however the
    push ends. *)
Theorem push_snapshot_lists_each_layer_once (self : Repo2Docker Mixin) s :
  exists evs,
    trace (push_image self s).2 = trace s ++ evs /\
    Forall (fun shot => distinct_ids shot.2 /\ shot.2.*1 = layer_ids shot.1)
           (snapshots [] evs).
Proof.
  unfold push_image. unfold bind at 1. unfold time_now at 1.
  unfold bind at 1. unfold emit.
  match goal with |- context [push_loop ?lines [] ?t ?s0] =>
    destruct (push_loop_snapshots lines [] t s0 []) as (evs & Htr & Hall);
    [constructor|done|];
    exists ([EvTime t; EvPush (output_image_spec self)] ++ evs)
  end.
  split; [rewrite Htr; trace_eq|]. by cbn [app snapshots].
Qed.
End PushOutcome.

(** ** [run_image], continued *)

Section RunOutcome.
Context {Mixin : Type} {D : Detectors Mixin} {W : Host Tree} {K : Docker}.
Implicit Types (s : state) (self : Repo2Docker Mixin).

Lemma count_of_app (kind : event -> bool) (a b : list event) :
  count_of kind (a ++ b) = (count_of kind a + count_of kind b)%nat.
Proof. unfold count_of. by rewrite List.filter_app, length_app. Qed.

Lemma count_of_line_events (kind : event -> bool) lv phase (lines : list string) :
  (forall line, kind (EvLog lv (MsgStr line) phase) = false) ->
  count_of kind (line_events lv phase lines) = 0%nat.
Proof.
  intros Hk. unfold count_of. induction lines as [|line lines IH]; [done|].
  cbn. by rewrite Hk.
Qed.

(** The status poll either gives up or returns a container: it never
    raises. *)
Lemma wait_created_outcome fuel : forall (container : attrs) s,
  (wait_created fuel container s).1 = Hang \/
  exists container', (wait_created fuel container s).1 = Ret container'.
Proof.
  induction fuel as [|fuel IH]; intros container s; cbn [wait_created];
    destruct (String.eqb _ _); try (by right; eexists); [by left|].
  unfold bind, emit, reload, bind, next_inspection, emit, ret. apply IH.
Qed.

(** After the launch: the poll, the log stream and the [finally] block. *)
Lemma supervised_outcome fuel (container : attrs) s :
  (bind (wait_created fuel container) (fun _ => try_finally stream_logs cleanup) s).1 = Hang \/
  exists code,
    (bind (wait_created fuel container) (fun _ => try_finally stream_logs cleanup) s).1
    = Exc (SystemExit code).
Proof.
  unfold bind.
  destruct (wait_created_outcome fuel container s) as [Hh|(c' & Hc)];
    destruct (wait_created fuel container s) as [[c''| |] s1]; cbn [fst] in *;
    try discriminate; [by left|].
  destruct (supervision_ends_in_removal s1) as (s' & evs & Hrun & _).
  right. eexists. by rewrite Hrun.
Qed.

Lemma run_image_outcome fuel self s :
  (run_image fuel self s).1 = Hang \/
  exists code, (run_image fuel self s).1 = Exc (SystemExit code).
Proof.
  unfold run_image. unfold bind at 1. unfold _get_free_port at 1.
  destruct (run_cmd self).
  - unfold bind at 1. unfold bind at 1. unfold _get_free_port at 1. cbn [ret fst snd].
    unfold bind at 1. unfold containers_run, bind at 1, emit, next_inspection.
    apply supervised_outcome.
  - unfold bind at 1. cbn [ret fst snd].
    unfold bind at 1. unfold containers_run, bind at 1, emit, next_inspection.
    apply supervised_outcome.
Qed.

(** X8.  Whatever the engine reports and however the log stream ends,
    [run_image] never returns to its caller and lets no exception of the
    log stream through: it ends in [sys.exit], unless the status poll is
    still waiting.  In particular a stream that breaks with an exception
    ends the process with the container's exit code, not with the
    exception. *)
Theorem run_image_never_returns fuel self s :
  (forall r : unit, (run_image fuel self s).1 <> Ret r) /\
  (forall msg, (run_image fuel self s).1 <> Exc (StreamError msg)) /\
  ((run_image fuel self s).1 = Hang \/
   exists code, (run_image fuel self s).1 = Exc (SystemExit code)).
Proof.
  destruct (run_image_outcome fuel self s) as [Hh|(code & Hc)].
  - rewrite Hh. repeat split; try discriminate. by left.
  - rewrite Hc. repeat split; try discriminate. right. by exists code.
Qed.

(** The status poll when the container is reported ['created'] [j] times
    and then something else, with fuel for [j] rounds: it sleeps [j]
    times, reloads [j] times and returns. *)
Lemma wait_created_run (j : nat) : forall fuel (container : attrs) s,
  (j <= fuel)%nat ->
  (forall i, (i < j)%nat ->
     status (match i with O => container | S i' => inspect (inspections s + i') end)
     = "created") ->
  status (match j with O => container | S j' => inspect (inspections s + j') end)
    <> "created" ->
  exists s' evs,
    wait_created fuel container s =
      (Ret (match j with O => container | S j' => inspect (inspections s + j') end), s') /\
    inspections s' = (inspections s + j)%nat /\
    trace s' = trace s ++ evs /\
    count_of is_sleep evs = j /\
    count_of is_remove evs = 0%nat /\
    count_of is_kill evs = 0%nat.
Proof.
  induction j as [|j IH]; intros fuel container s Hfuel Hcreated Hleft.
  - exists s, []. rewrite app_nil_r, Nat.add_0_r.
    apply String.eqb_neq in Hleft.
    split; [|done]. destruct fuel; cbn [wait_created]; by rewrite Hleft.
  - destruct fuel as [|fuel]; [lia|].
    pose proof (Hcreated 0%nat ltac:(lia)) as H0. cbn in H0.
    apply String.eqb_eq in H0.
    cbn [wait_created]. rewrite H0.
    unfold bind at 1. unfold emit at 1. unfold bind at 1.
    unfold reload, bind at 1, next_inspection, emit, ret.
    cbn [inspections logged].
    set (s1 := logged (State (next_oid s) (ticks s) (probes s) (S (inspections s)) (cwd s)
                             (trace s ++ [EvSleep]))
                      [EvReload (inspect (inspections s))]).
    destruct (IH fuel (inspect (inspections s)) s1) as (s' & evs & Hrun & Hi & Htr & Hs & Hr & Hk).
    + lia.
    + intros i Hi. specialize (Hcreated (S i) ltac:(lia)). cbn in Hcreated.
      destruct i as [|i]; [by rewrite Nat.add_0_r in Hcreated|].
      subst s1. cbn [inspections logged].
      by replace (S (inspections s) + i)%nat with (inspections s + S i)%nat by lia.
    + destruct j as [|j]; [by rewrite Nat.add_0_r in Hleft|].
      subst s1. cbn [inspections logged].
      by replace (S (inspections s) + j)%nat with (inspections s + S j)%nat by lia.
    + exists s', ([EvSleep; EvReload (inspect (inspections s))] ++ evs).
      split.
      { change (wait_created fuel (inspect (inspections s)) s1
                = (Ret (inspect (inspections s + j)), s')).
        rewrite Hrun. f_equal. f_equal. destruct j as [|j]; [by rewrite Nat.add_0_r|].
        subst s1. cbn [inspections logged]. f_equal. lia. }
      split; [rewrite Hi; subst s1; cbn; lia|].
      split; [rewrite Htr; trace_eq|].
      rewrite !count_of_app, Hs, Hr, Hk. done.
Qed.

(** The calls of the log-streaming step and its [finally] block, counted:
    no sleep, one removal, one kill exactly when the container is
    reported running. *)
Lemma supervision_counts s :
  let a := inspect (inspections s) in
  exists s' evs,
    try_finally stream_logs cleanup s = (Exc (SystemExit (ExitCode a)), s') /\
    trace s' = trace s ++ evs /\
    count_of is_sleep evs = 0%nat /\
    count_of is_remove evs = 1%nat /\
    count_of is_kill evs = (if String.eqb (status a) "running" then 1 else 0)%nat /\
    last evs = Some EvRemove.
Proof.
  intros a.
  set (running := String.eqb (status a) "running").
  set (lines := line_events INFO "running" (fst log_stream)).
  set (stop := if running
               then [EvLog INFO (MsgStr ("Stopping container..." ++ nl)) "running"; EvKill]
               else []).
  exists (State (next_oid s) (ticks s) (probes s) (S (inspections s)) (cwd s)
                (trace s ++ [EvLogs] ++ lines ++ [EvReload a] ++ stop ++ [EvRemove])),
         ([EvLogs] ++ lines ++ [EvReload a] ++ stop ++ [EvRemove]).
  split.
  { unfold try_finally, stream_logs, bind, emit. rewrite log_lines_run.
    assert (Hfin : forall s0, inspections s0 = inspections s ->
              cleanup s0 =
              (Exc (SystemExit (ExitCode a)),
               State (next_oid s0) (ticks s0) (probes s0) (S (inspections s0)) (cwd s0)
                     (trace s0 ++ [EvReload a] ++ stop ++ [EvRemove]))).
    { intros s0 Hs0. unfold cleanup, reload, bind, next_inspection, emit, log, emit,
        sys_exit, raise, ret. rewrite Hs0. fold a. cbn [logged status].
      subst stop. fold running.
      destruct running; unfold logged; cbn; by rewrite <- ?app_assoc. }
    destruct (snd log_stream) as [e|]; unfold raise, ret; rewrite Hfin by done;
      unfold logged; cbn; by rewrite <- ?app_assoc. }
  split; [done|].
  rewrite !count_of_app. subst lines. rewrite !count_of_line_events by done.
  split; [by subst stop; destruct running|].
  split; [by subst stop; destruct running|].
  split; [by subst stop; destruct running|].
  by rewrite !app_assoc, last_snoc.
Qed.

(** X9.  When the engine reports the container ['created'] [j] times and then
    in another state, and the poll may run that long, [run_image] sleeps
    [j] times, then streams the logs and ends with [sys.exit] of the exit
    code in the report taken at the start of the [finally] block; the
    container is removed exactly once, as the last call, and killed once
    exactly when that report says ['running']. *)
Theorem run_image_exits_after_poll fuel self s (j : nat) :
  (j <= fuel)%nat ->
  (forall i, (i < j)%nat -> status (inspect (inspections s + i)) = "created") ->
  status (inspect (inspections s + j)) <> "created" ->
  let a := inspect (inspections s + S j) in
  exists s' evs,
    run_image fuel self s = (Exc (SystemExit (ExitCode a)), s') /\
    trace s' = trace s ++ evs /\
    count_of is_sleep evs = j /\
    count_of is_remove evs = 1%nat /\
    count_of is_kill evs = (if String.eqb (status a) "running" then 1 else 0)%nat /\
    last evs = Some EvRemove.
Proof.
  intros Hfuel Hcreated Hleft a.
  assert (Hrest : forall s0 (pre : list event),
            inspections s0 = S (inspections s) ->
            trace s0 = trace s ++ pre ->
            count_of is_sleep pre = 0%nat ->
            count_of is_remove pre = 0%nat ->
            count_of is_kill pre = 0%nat ->
            exists s' evs,
              bind (wait_created fuel (inspect (inspections s)))
                   (fun _ => try_finally stream_logs cleanup) s0
              = (Exc (SystemExit (ExitCode a)), s') /\
              trace s' = trace s ++ evs /\
              count_of is_sleep evs = j /\
              count_of is_remove evs = 1%nat /\
              count_of is_kill evs = (if String.eqb (status a) "running" then 1 else 0)%nat /\
              last evs = Some EvRemove).
  { intros s0 pre Hi0 Htr0 Hs0 Hr0 Hk0.
    destruct (wait_created_run j fuel (inspect (inspections s)) s0 Hfuel)
      as (s1 & evs1 & Hrun1 & Hi1 & Htr1 & Hs1 & Hr1 & Hk1).
    - intros i Hi. specialize (Hcreated i Hi).
      destruct i as [|i]; [by rewrite Nat.add_0_r in Hcreated|].
      rewrite Hi0. by replace (S (inspections s) + i)%nat with (inspections s + S i)%nat by lia.
    - destruct j as [|j]; [by rewrite Nat.add_0_r in Hleft|].
      rewrite Hi0. by replace (S (inspections s) + j)%nat with (inspections s + S j)%nat by lia.
    - destruct (supervision_counts s1) as (s' & evs2 & Hrun2 & Htr2 & Hs2 & Hr2 & Hk2 & Hlast).
      cbv zeta in Hrun2, Hk2.
      replace (inspections s1) with (inspections s + S j)%nat in Hrun2, Hk2 by lia.
      exists s', (pre ++ evs1 ++ evs2).
      split; [by unfold bind; rewrite Hrun1|].
      split; [by rewrite Htr2, Htr1, Htr0, <- !app_assoc|].
      rewrite !count_of_app, Hs0, Hr0, Hk0, Hs1, Hr1, Hk1, Hs2, Hr2, Hk2.
      repeat split; try lia.
      by rewrite !last_app, Hlast. }
  unfold run_image. unfold bind at 1. unfold _get_free_port at 1.
  destruct (run_cmd self).
  - unfold bind at 1. unfold bind at 1. unfold _get_free_port at 1. cbn [ret fst snd].
    unfold bind at 1. unfold containers_run, bind at 1, emit, next_inspection.
    cbn [probes inspections logged].
    eapply Hrest; [reflexivity|cbn; by rewrite <- !app_assoc|done..].
  - unfold bind at 1. cbn [ret fst snd].
    unfold bind at 1. unfold containers_run, bind at 1, emit, next_inspection.
    cbn [probes inspections logged].
    eapply Hrest; [reflexivity|cbn; by rewrite <- !app_assoc|done..].
Qed.
End RunOutcome.

(** ** [start], continued *)

Section StartOutcome.
Context {Mixin : Type} {D : Detectors Mixin} {W : Host Tree} {K : Docker}.
Implicit Types (s : state) (self : Repo2Docker Mixin).

Lemma bind_assoc {A B C} (m : M A) (k : A -> M B) (h : B -> M C) s :
  bind (bind m k) h s = bind m (fun a => bind (k a) h) s.
Proof. unfold bind. by destruct (m s) as [[a|e|] s1]. Qed.

Lemma bind_ext {A B} (m : M A) (k k' : A -> M B) s :
  (forall a s1, k a s1 = k' a s1) -> bind m k s = bind m k' s.
Proof. intros Hk. unfold bind. destruct (m s) as [[a|e|] s1]; [apply Hk|done..]. Qed.

(** [start] is its upstream part followed by its downstream part. *)
Lemma start_split fuel self s :
  start fuel self s = bind (start_upstream self) (start_downstream fuel self) s.
Proof.
  symmetry. unfold start_upstream, start.
  rewrite bind_assoc. apply bind_ext. intros checkout_path s1.
  rewrite bind_assoc. apply bind_ext. intros _ s2.
  rewrite bind_assoc. apply bind_ext. intros selected s3.
  rewrite bind_assoc. apply bind_ext. intros description s4.
  rewrite bind_assoc. apply bind_ext. intros _ s5.
  rewrite bind_assoc. apply bind_ext. intros _ s6.
  reflexivity.
Qed.

Local Ltac emits_steps :=
  repeat first
    [ apply emits_ret | apply emits_raise | apply emits_hang
    | apply emits_emit; done
    | apply emits_silent; reflexivity
    | apply emits_log_lines; intros; done
    | apply emits_bind; [|intros ?]
    | match goal with |- emits _ (if ?c then _ else _) => destruct c end
    | match goal with |- emits _ (match ?c with _ => _ end) => destruct c end ].

Lemma emits_fetch_of (P : event -> Prop) self url ref path :
  (forall cmd dir, P (EvExec cmd dir)) ->
  (forall lv msg phase, P (EvLog lv msg phase)) ->
  emits P (fetch self url ref path).
Proof.
  intros Hexec Hlog.
  unfold fetch, _clone, _unshallow, _contains, _checkout, run_logged, log.
  emits_steps.
Qed.

Lemma emits_compose_of (P : event -> Prop) (chain : list Mixin) parent :
  (forall m o, P (EvNew m o)) ->
  (forall a b r, P (EvComposeWith a b r)) ->
  emits P (compose chain parent).
Proof.
  intros Hnew Hwith.
  assert (Hloop : forall rest image, emits P (compose_loop image rest parent)).
  { induction rest as [|m rest IH]; intros image; cbn [compose_loop]; [apply emits_ret|].
    unfold new, call_compose_with. emits_steps. apply IH. }
  destruct chain as [|first rest]; cbn [compose]; [apply emits_raise|].
  unfold new. emits_steps. apply Hloop.
Qed.

Lemma emits_select_of (P : event -> Prop) self :
  (forall m o, P (EvNew m o)) ->
  (forall a b r, P (EvComposeWith a b r)) ->
  (forall bp r, P (EvDetect bp r)) ->
  emits P (select self).
Proof.
  intros Hnew Hwith Hdetect.
  assert (Hloop : forall catalog picked bp, emits P (select_loop catalog self picked bp)).
  { induction catalog as [|chain catalog IH]; intros picked bp; cbn [select_loop];
      [apply emits_ret|].
    apply emits_bind; [by apply emits_compose_of|]. intros b.
    apply emits_bind; [unfold call_detect; emits_steps|]. intros found.
    destruct found; [apply emits_ret|apply IH]. }
  unfold select. apply emits_bind; [by apply emits_compose_of|]. intros picked. apply Hloop.
Qed.

Lemma emits_build_stage_of (P : event -> Prop) self (picked : obj) (bp : option obj) :
  (forall lv msg phase, P (EvLog lv msg phase)) ->
  (forall b tag, P (EvBuild b tag)) ->
  (forall l, P (EvBuildRecord l)) ->
  emits P (build_stage self picked bp).
Proof.
  intros Hlog Hbuild Hrecord.
  assert (Hloop : forall records, emits P (build_loop records)).
  { induction records as [|l records IH]; cbn [build_loop]; [apply emits_ret|].
    unfold log, sys_exit.
    apply emits_bind; [by apply emits_emit|]. intros _.
    destruct (l !! "stream"); [emits_steps; exact IH|].
    destruct (l !! "error"); [emits_steps|].
    destruct (has_key "status" l); emits_steps; exact IH. }
  unfold build_stage, log. emits_steps; apply Hloop.
Qed.

Lemma emits_start (P : event -> Prop) fuel self :
  emits P (start_upstream self) ->
  (forall checkout_path, emits P (start_downstream fuel self checkout_path)) ->
  emits P (start fuel self).
Proof.
  intros Hup Hdown s. rewrite start_split. by apply emits_bind.
Qed.

Lemma emits_time_now (P : event -> Prop) : (forall t, P (EvTime t)) -> emits P time_now.
Proof.
  intros Ht s. exists [EvTime (time_time (ticks s))]. split; [done|]. by constructor.
Qed.

Lemma emits_initialize (P : event -> Prop) (traits : Repo2Docker Mixin) (args : Args) :
  (forall t, P (EvTime t)) -> emits P (initialize traits args).
Proof.
  intros Ht. unfold initialize, default_image_spec.
  apply emits_bind; [|intros; apply emits_ret].
  destruct (arg_image_name args) as [image_name|];
    [destruct (String.eqb image_name "")|];
    first [apply emits_ret
          | apply emits_bind; [by apply emits_time_now|intros; apply emits_ret]].
Qed.

(** The attributes [initialize] sets. *)
Lemma initialize_fields (traits : Repo2Docker Mixin) (args : Args) s self s1 :
  initialize traits args s = (Ret self, s1) ->
  repo self = arg_repo args /\
  repo_type self = (if path_exists (arg_repo args) then "local" else "remote") /\
  cleanup_checkout self = (if path_exists (arg_repo args) then false else arg_clean args) /\
  build self = arg_build args /\
  push self = (if arg_build args then arg_push args else false) /\
  run self = (if arg_build args then arg_run args else false).
Proof.
  unfold initialize, bind. intros Hinit.
  repeat case_match; try discriminate; by injection Hinit as <- _.
Qed.

(** Every call of [main] satisfies [P] when those of [initialize] and,
    for the application object it returns, those of [start] do. *)
Lemma main_trace (P : event -> Prop) fuel (traits : Repo2Docker Mixin) (args : Args) :
  (forall t, P (EvTime t)) ->
  (forall self s1, initialize traits args init_state = (Ret self, s1) ->
                   emits P (start fuel self)) ->
  Forall P (trace (main fuel traits args).2).
Proof.
  intros Ht Hstart. unfold main, bind.
  destruct (emits_initialize P traits args Ht init_state) as (evs & Htr & Hall).
  destruct (initialize traits args init_state) as [[self|e|] s1] eqn:Hinit;
    cbn [snd] in Htr |- *; cbn [trace init_state app] in Htr.
  - destruct (Hstart self s1 eq_refl s1) as (evs' & Htr' & Hall').
    rewrite Htr', Htr. by apply Forall_app.
  - by rewrite Htr.
  - by rewrite Htr.
Qed.

Lemma emits_bind_ret {A B} (P : event -> Prop) (a : A) (k : A -> M B) :
  emits P (k a) -> emits P (bind (ret a) k).
Proof. intros Hk s. exact (Hk s). Qed.

Lemma emits_chdir (P : event -> Prop) path : P (EvChdir path) -> emits P (chdir path).
Proof. intros Hp s. exists [EvChdir path]. split; [done|]. by constructor. Qed.

Lemma downstream_in_place path (e : event) : downstream e -> in_place path e.
Proof. by destruct e. Qed.

(** X10.  For a source that exists locally, whatever [--ref] and [--no-clean]
    say, an invocation runs no git command and removes nothing, and the
    only directory it changes to is the source itself. *)
Theorem local_source_is_used_in_place fuel (traits : Repo2Docker Mixin) (args : Args) :
  path_exists (arg_repo args) = true ->
  Forall (in_place (arg_repo args)) (trace (main fuel traits args).2).
Proof.
  intros Hlocal. apply main_trace; [done|].
  intros self s1 Hinit.
  destruct (initialize_fields traits args init_state self s1 Hinit)
    as (Hrepo & Htype & Hclean & _).
  rewrite Hlocal in Htype, Hclean.
  apply emits_start.
  - unfold start_upstream. rewrite Htype.
    replace (String.eqb "local" "local") with true by reflexivity.
    apply emits_bind_ret.
    apply emits_bind; [by apply emits_chdir|]. intros _.
    apply emits_bind; [by apply emits_select_of|]. intros selected.
    apply emits_bind; [unfold call_render; emits_steps|]. intros description.
    apply emits_bind; [unfold log; emits_steps|]. intros _.
    apply emits_bind; [|intros; apply emits_ret].
    destruct (build self); [by apply emits_build_stage_of|apply emits_ret].
  - intros checkout_path. unfold start_downstream. rewrite Hclean.
    apply emits_bind; [apply emits_ret|]. intros _.
    apply emits_bind; [|intros _].
    + destruct (push self); [|apply emits_ret].
      eapply emits_weaken; [apply downstream_in_place|apply emits_push_image].
    + destruct (run self); [|apply emits_ret].
      eapply emits_weaken; [apply downstream_in_place|apply emits_run_image].
Qed.

(** X11.  With [--no-build], whatever [--push] and the run options say, an
    invocation calls no build, consumes no build record, pushes nothing and
    starts, polls or removes no container. *)
Theorem no_build_is_dry fuel (traits : Repo2Docker Mixin) (args : Args) :
  arg_build args = false ->
  Forall dry (trace (main fuel traits args).2).
Proof.
  intros Hbuild. apply main_trace; [done|].
  intros self s1 Hinit.
  destruct (initialize_fields traits args init_state self s1 Hinit)
    as (_ & _ & _ & Hb & Hpush & Hrun).
  rewrite Hbuild in Hb, Hpush, Hrun.
  apply emits_start.
  - unfold start_upstream. rewrite Hb.
    apply emits_bind.
    { destruct (String.eqb (repo_type self) "local"); [apply emits_ret|].
      apply emits_bind; [by apply emits_fetch_of|]. intros _. apply emits_ret. }
    intros checkout_path.
    apply emits_bind; [by apply emits_chdir|]. intros _.
    apply emits_bind; [by apply emits_select_of|]. intros selected.
    apply emits_bind; [unfold call_render; emits_steps|]. intros description.
    apply emits_bind; [unfold log; emits_steps|]. intros _.
    apply emits_bind; intros; apply emits_ret.
  - intros checkout_path. unfold start_downstream. rewrite Hpush, Hrun.
    apply emits_bind; [|intros _; apply emits_bind; intros; apply emits_ret].
    destruct (cleanup_checkout self); [unfold rmtree; emits_steps|apply emits_ret].
Qed.

Lemma emits_start_upstream self : emits upstream (start_upstream self).
Proof.
  unfold start_upstream.
  apply emits_bind.
  { destruct (String.eqb (repo_type self) "local"); [apply emits_ret|].
    apply emits_bind; [by apply emits_fetch_of|]. intros _. apply emits_ret. }
  intros checkout_path.
  apply emits_bind; [by apply emits_chdir|]. intros _.
  apply emits_bind; [by apply emits_select_of|]. intros selected.
  apply emits_bind; [unfold call_render; emits_steps|]. intros description.
  apply emits_bind; [unfold log; emits_steps|]. intros _.
  apply emits_bind; [|intros; apply emits_ret].
  destruct (build self); [by apply emits_build_stage_of|apply emits_ret].
Qed.

Lemma upstream_no_rmtree (evs : list event) :
  Forall upstream evs -> count_of is_rmtree evs = 0%nat.
Proof.
  unfold count_of. induction 1 as [|e evs He _ IH]; [done|].
  cbn. by destruct e.
Qed.

Lemma downstream_no_rmtree (evs : list event) :
  Forall downstream evs -> count_of is_rmtree evs = 0%nat.
Proof.
  unfold count_of. induction 1 as [|e evs He _ IH]; [done|].
  cbn. by destruct e.
Qed.

(** X12.  [start] returns to its caller only when no container is to be run, and
    then the checkout has been removed exactly once if cleaning is on, and
    not at all otherwise. *)
Theorem start_returns_without_run fuel self s s' :
  start fuel self s = (Ret tt, s') ->
  run self = false /\
  exists evs,
    trace s' = trace s ++ evs /\
    count_of is_rmtree evs = (if cleanup_checkout self then 1 else 0)%nat.
Proof.
  rewrite start_split. intros Hrun.
  apply bind_ret_inv in Hrun as (checkout_path & s1 & Hup & Hdown).
  unfold start_downstream in Hdown.
  apply bind_ret_inv in Hdown as ([] & s2 & Hclean & Hdown).
  apply bind_ret_inv in Hdown as ([] & s3 & Hpush & Hlast).
  destruct (run self) eqn:Hr.
  { destruct (run_image_outcome fuel self s3) as [Hh|[code Hh]];
      rewrite Hlast in Hh; discriminate. }
  split; [done|]. injection Hlast as <-.
  destruct (emits_start_upstream self s) as (eu & Htu & Hau). rewrite Hup in Htu.
  assert (exists ep, trace s3 = trace s2 ++ ep /\ Forall downstream ep) as (ep & Htp & Hap).
  { destruct (push self).
    - destruct (emits_push_image self s2) as (ep & Htp & Hap). rewrite Hpush in Htp. eauto.
    - injection Hpush as ->. exists []. by rewrite app_nil_r. }
  cbn [snd] in Htu.
  destruct (cleanup_checkout self).
  - injection Hclean as <-. exists (eu ++ [EvRmtree checkout_path] ++ ep). split.
    + rewrite Htp. cbn [logged trace]. by rewrite Htu, <- !app_assoc.
    + rewrite !count_of_app, (upstream_no_rmtree eu Hau), (downstream_no_rmtree ep Hap).
      reflexivity.
  - injection Hclean as <-. exists (eu ++ ep). split.
    + by rewrite Htp, Htu, <- app_assoc.
    + by rewrite count_of_app, (upstream_no_rmtree eu Hau), (downstream_no_rmtree ep Hap).
Qed.

Lemma exits_on_failure_ret {A} (a : A) : exits_on_failure (ret a).
Proof. intros s. exists []. rewrite app_nil_r. split; [done|]. split; [done|]. by right. Qed.

Lemma exits_on_failure_raise {A} (e : exn) : exits_on_failure (raise (A := A) e).
Proof. intros s. exists []. rewrite app_nil_r. split; [done|]. split; [done|]. by right. Qed.

Lemma takes_no_record_consumed (evs : list event) :
  Forall (fun e => upstream e /\ takes_no_record e) evs -> consumed evs = [].
Proof.
  unfold consumed. induction 1 as [|e evs [_ He] _ IH]; [done|].
  cbn [omap list_omap]. rewrite IH. by destruct e.
Qed.

(** A stage that takes no build record, before one that exits on failure. *)
Lemma exits_on_failure_bind {A B} (m : M A) (k : A -> M B) :
  emits (fun e => upstream e /\ takes_no_record e) m ->
  (forall a, exits_on_failure (k a)) ->
  exits_on_failure (bind m k).
Proof.
  intros Hm Hk s. destruct (Hm s) as (evs & Htr & Hall).
  pose proof (takes_no_record_consumed evs Hall) as Hnone.
  assert (Hup : Forall upstream evs) by (eapply Forall_impl; [exact Hall|by intros ? []]).
  unfold bind. destruct (m s) as [[a|e|] s1]; cbn [snd] in Htr.
  - destruct (Hk a s1) as (evs' & Htr' & Hall' & Hout).
    exists (evs ++ evs'). rewrite Htr', Htr, app_assoc. split; [done|].
    split; [by apply Forall_app|].
    destruct Hout as [Hexit|Hclean]; [by left|right].
    by rewrite consumed_app, Hnone.
  - exists evs. split; [done|]. split; [done|]. right. by rewrite Hnone.
  - exists evs. split; [done|]. split; [done|]. right. by rewrite Hnone.
Qed.

(** A stage that exits on failure, before a return. *)
Lemma exits_on_failure_then_ret {A B} (m : M A) (b : B) :
  exits_on_failure m -> exits_on_failure (bind m (fun _ => ret b)).
Proof.
  intros Hm s. destruct (Hm s) as (evs & Htr & Hall & Hout).
  exists evs. unfold bind. destruct (m s) as [[a|e|] s1]; cbn [fst snd ret] in *;
    (split; [done|]); (split; [done|]);
    (destruct Hout as [Hexit|Hclean]; [|by right]).
  - discriminate.
  - left. by injection Hexit as ->.
  - discriminate.
Qed.

Lemma build_loop_exits_on_failure (records : list record) :
  exits_on_failure (build_loop records).
Proof.
  induction records as [|l records IH]; [apply exits_on_failure_ret|].
  intros s. destruct (halts_build l) eqn:Hl.
  - unfold halts_build, has_key in Hl. apply andb_true_iff in Hl as [Herr Hstream].
    cbn [build_loop]. unfold bind, emit, log, sys_exit, raise.
    destruct (l !! "stream"); [done|]. destruct (l !! "error") as [err|]; [|done].
    exists [EvBuildRecord l; EvLog INFO (MsgJson err) "failure"].
    unfold emit. cbn [fst snd logged trace].
    split; [by rewrite <- app_assoc|]. split; [by repeat constructor|by left].
  - destruct (build_loop_step l records s Hl) as (msg & ->).
    destruct (IH (logged s [EvBuildRecord l; EvLog INFO msg "building"]))
      as (evs & Htr & Hall & Hout).
    exists ([EvBuildRecord l; EvLog INFO msg "building"] ++ evs).
    split; [by rewrite Htr, app_assoc|].
    split; [apply Forall_app; split; [by repeat constructor|done]|].
    destruct Hout as [Hexit|Hclean]; [by left|right].
    rewrite consumed_app. apply Forall_app. split; [|done].
    cbn. by constructor.
Qed.

Lemma start_upstream_exits_on_failure self : exits_on_failure (start_upstream self).
Proof.
  unfold start_upstream.
  apply exits_on_failure_bind.
  { destruct (String.eqb (repo_type self) "local"); [apply emits_ret|].
    apply emits_bind; [by apply emits_fetch_of|]. intros _. apply emits_ret. }
  intros checkout_path.
  apply exits_on_failure_bind; [by apply emits_chdir|]. intros _.
  apply exits_on_failure_bind; [by apply emits_select_of|]. intros selected.
  apply exits_on_failure_bind; [unfold call_render; emits_steps|]. intros description.
  apply exits_on_failure_bind; [unfold log; emits_steps|]. intros _.
  apply exits_on_failure_then_ret.
  destruct (build self); [|apply exits_on_failure_ret].
  unfold build_stage. destruct (snd selected) as [b|].
  - apply exits_on_failure_bind; [apply emits_ret|]. intros bp_name.
    apply exits_on_failure_bind; [unfold log; emits_steps|]. intros _.
    apply exits_on_failure_bind; [emits_steps|]. intros _.
    apply build_loop_exits_on_failure.
  - apply exits_on_failure_bind; [apply emits_raise|]. intros bp_name.
    apply exits_on_failure_bind; [unfold log; emits_steps|]. intros _.
    apply exits_on_failure_bind; [emits_steps|]. intros _.
    apply build_loop_exits_on_failure.
Qed.

(** X13.  A failed build stops the whole invocation: when [start] has consumed a
    build record with an ['error'] key and no ['stream'] key, it ends with
    exit status 1 and has made upstream calls only, so that the checkout
    is left on disk even when cleaning is on, and nothing is pushed or
    run. *)
Theorem failed_build_leaves_checkout fuel self s (evs : list event) (l : record) :
  trace (start fuel self s).2 = trace s ++ evs ->
  l ∈ consumed evs ->
  halts_build l = true ->
  (start fuel self s).1 = Exc (SystemExit 1) /\ Forall upstream evs.
Proof.
  rewrite start_split. intros Htr Hin Hl.
  destruct (start_upstream_exits_on_failure self s) as (eu & Htu & Hau & Hout).
  unfold bind in *.
  destruct (start_upstream self s) as [[checkout_path|e|] s1]; cbn [fst snd] in *.
  - destruct Hout as [Hexit|Hclean]; [discriminate|]. exfalso.
    assert (emits (fun e => downstream e \/ is_rmtree e = true)
                  (start_downstream fuel self checkout_path)) as Hdown.
    { unfold start_downstream. apply emits_bind; [|intros _; apply emits_bind; [|intros _]].
      - destruct (cleanup_checkout self); [|apply emits_ret].
        unfold rmtree. apply emits_emit. by right.
      - destruct (push self); [|apply emits_ret].
        eapply emits_weaken; [|apply emits_push_image]. by left.
      - destruct (run self); [|apply emits_ret].
        eapply emits_weaken; [|apply emits_run_image]. by left. }
    destruct (Hdown s1) as (ed & Htd & Had).
    rewrite Htd, Htu, <- app_assoc in Htr. apply app_inv_head in Htr. subst evs.
    rewrite consumed_app in Hin. apply elem_of_app in Hin as [Hin|Hin].
    + rewrite Forall_forall in Hclean. specialize (Hclean l Hin). congruence.
    + assert (consumed ed = []) as Hnone.
      { clear -Had. unfold consumed. induction Had as [|e ed He _ IH]; [done|].
        cbn [omap list_omap]. rewrite IH. by destruct e, He. }
      rewrite Hnone in Hin. by apply elem_of_nil in Hin.
  - rewrite Htu in Htr. apply app_inv_head in Htr. subst evs.
    destruct Hout as [Hexit|Hclean]; [by injection Hexit as ->|].
    rewrite Forall_forall in Hclean. specialize (Hclean l Hin). congruence.
  - rewrite Htu in Htr. apply app_inv_head in Htr. subst evs.
    destruct Hout as [Hexit|Hclean]; [discriminate|].
    rewrite Forall_forall in Hclean. specialize (Hclean l Hin). congruence.
Qed.

(** A stage that returns, before the rest of a computation. *)
Lemma bind_ret_emits {A B} (P : event -> Prop) (m : M A) (k : A -> M B)
    (r : outcome B) s (a : A) :
  (m s).1 = Ret a ->
  emits P m ->
  (forall s1, exists evs,
     (k a s1).1 = r /\ trace (k a s1).2 = trace s1 ++ evs /\ Forall P evs) ->
  exists evs,
    (bind m k s).1 = r /\ trace (bind m k s).2 = trace s ++ evs /\ Forall P evs.
Proof.
  intros Hret Hm Hk. destruct (Hm s) as (evs & Htr & Hall). unfold bind.
  destruct (m s) as [o s1]. cbn [fst snd] in *. subst o.
  destruct (Hk s1) as (evs' & Hr & Htr' & Hall').
  exists (evs ++ evs'). split; [done|]. rewrite Htr', Htr, app_assoc.
  split; [done|]. by apply Forall_app.
Qed.

(** X14.  With an empty catalog the loop variable [bp] of [start] is never
    bound: once the checkout is in place (a local source, or a fetch that
    returns), a building invocation ends with [UnboundLocalError] at the
    ['Using ... builder'] line, before any build call. *)
Theorem empty_catalog_cannot_build fuel self s :
  buildpacks self = [] ->
  build self = true ->
  default_buildpack self <> [] ->
  (String.eqb (repo_type self) "local" = false ->
   (fetch self (repo self) (ref self) (path_join (git_workdir self) uuid4) s).1 = Ret tt) ->
  exists evs,
    (start fuel self s).1 = Exc (UnboundLocalError "bp") /\
    trace (start fuel self s).2 = trace s ++ evs /\
    Forall dry evs.
Proof.
  intros Hcat Hbuild Hdef Hfetch.
  assert (exists evs,
    (start_upstream self s).1 = Exc (UnboundLocalError "bp") /\
    trace (start_upstream self s).2 = trace s ++ evs /\ Forall dry evs) as Hup.
  { unfold start_upstream.
    set (stage := if String.eqb (repo_type self) "local" then _ else _).
    assert (exists checkout_path, (stage s).1 = Ret checkout_path) as [checkout_path Hpath].
    { subst stage. destruct (String.eqb (repo_type self) "local"); [by eexists|].
      specialize (Hfetch eq_refl). eexists. unfold bind.
      destruct (fetch _ _ _ _ s) as [o s1]. cbn [fst] in Hfetch. by subst o. }
    apply bind_ret_emits with (a := checkout_path); [exact Hpath| |].
    { subst stage. destruct (String.eqb (repo_type self) "local"); [apply emits_ret|].
      apply emits_bind; [by apply emits_fetch_of|]. intros _. apply emits_ret. }
    intros s1. apply bind_ret_emits with (a := tt); [done|by apply emits_chdir|].
    intros s2. destruct (default_buildpack self) as [|first rest] eqn:Hd; [done|].
    destruct (compose_spec (Some self) first rest s2) as (dflt & s0 & Hrun & _).
    apply bind_ret_emits with (a := (dflt, None)).
    { unfold select, bind. by rewrite Hd, Hrun, Hcat. }
    { by apply emits_select_of. }
    intros s3. apply bind_ret_emits with (a := render (val dflt));
      [done|unfold call_render; emits_steps|].
    intros s4. apply bind_ret_emits with (a := tt); [done|unfold log; emits_steps|].
    intros s5. rewrite Hbuild. exists []. rewrite app_nil_r. by split. }
  destruct Hup as (evs & Hout & Htr & Hall). exists evs. rewrite start_split. unfold bind.
  destruct (start_upstream self s) as [o s1]. cbn [fst snd] in *. by subst o.
Qed.

Lemma builds_app (a b : list event) : builds (a ++ b) = builds a ++ builds b.
Proof. apply omap_app. Qed.

Lemma builds_none (evs : list event) :
  Forall (fun e => is_build e = false) evs -> builds evs = [].
Proof.
  unfold builds. induction 1 as [|e evs He _ IH]; [done|].
  cbn [omap list_omap]. rewrite IH. by destruct e.
Qed.

(** Once an entry has been tried, the loop variable [bp] is bound. *)
Lemma select_loop_binds self (catalog : list (list Mixin)) :
  Forall (fun chain => chain <> []) catalog ->
  forall (picked : obj) (bp : option obj) s picked' bp' s',
    select_loop catalog self picked bp s = (Ret (picked', bp'), s') ->
    bp <> None \/ catalog <> [] ->
    bp' <> None.
Proof.
  induction 1 as [|chain catalog Hchain _ IH]; intros picked bp s picked' bp' s' Hrun Hb.
  - injection Hrun as _ <- _. by destruct Hb.
  - destruct chain as [|first rest]; [done|].
    destruct (select_loop_round self first rest catalog picked bp s)
      as (b & s1 & evs1 & _ & _ & _ & _ & Hstep).
    rewrite Hstep in Hrun. destruct (matches _ _ _).
    + by injection Hrun as _ <- _.
    + eapply IH; [exact Hrun|by left].
Qed.

Lemma build_stage_bind {B} self (picked b : obj) (k : unit -> M B) s :
  bind (build_stage self picked (Some b)) k s =
  bind (build_loop (bp_build (val picked) (output_image_spec self))) k
       (logged s [EvLog INFO (MsgStr ("Using " ++ name (val b) ++ " builder" ++ nl)) "building";
                  EvBuild picked (output_image_spec self)]).
Proof.
  unfold build_stage. rewrite !bind_assoc. unfold bind at 1. cbn [ret].
  rewrite bind_assoc. unfold bind at 1. unfold log, emit at 1.
  rewrite bind_assoc. unfold bind at 1. unfold emit at 1.
  by rewrite logged_logged.
Qed.

Lemma emits_build_loop_of (P : event -> Prop) (records : list record) :
  (forall lv msg phase, P (EvLog lv msg phase)) ->
  (forall l, P (EvBuildRecord l)) ->
  emits P (build_loop records).
Proof.
  intros Hlog Hrecord.
  induction records as [|l records IH]; cbn [build_loop]; [apply emits_ret|].
  unfold log, sys_exit.
  apply emits_bind; [by apply emits_emit|]. intros _.
  destruct (l !! "stream"); [emits_steps; exact IH|].
  destruct (l !! "error"); [emits_steps|].
  destruct (has_key "status" l); emits_steps; exact IH.
Qed.

Lemma emits_start_downstream_no_build fuel self checkout_path :
  emits (fun e => is_build e = false) (start_downstream fuel self checkout_path).
Proof.
  unfold start_downstream.
  apply emits_bind; [|intros _; apply emits_bind; [|intros _]].
  - destruct (cleanup_checkout self); [|apply emits_ret].
    unfold rmtree. by apply emits_emit.
  - destruct (push self); [|apply emits_ret].
    eapply emits_weaken; [|apply emits_push_image]. by intros [].
  - destruct (run self); [|apply emits_ret].
    eapply emits_weaken; [|apply emits_run_image]. by intros [].
Qed.

(** X15.  What is built is what the checkout holds: with a catalog that is
    not empty, once the checkout is in place (a local source, or a fetch
    that returns), a building invocation makes exactly one build call,
    under the output image name, on the buildpack composed from the first
    catalog entry that detects the tree of the checkout path (the source
    itself for a local one), and from the default chain if none does. *)
Theorem build_is_of_first_match_in_checkout fuel self s :
  build self = true ->
  default_buildpack self <> [] ->
  buildpacks self <> [] ->
  Forall (fun chain => chain <> []) (buildpacks self) ->
  (String.eqb (repo_type self) "local" = false ->
   (fetch self (repo self) (ref self) (path_join (git_workdir self) uuid4) s).1 = Ret tt) ->
  let path := if String.eqb (repo_type self) "local" then repo self
              else path_join (git_workdir self) uuid4 in
  exists evs bp,
    trace (start fuel self s).2 = trace s ++ evs /\
    composed (Some self)
             (default (default_buildpack self)
                      (first_match (Some self) (working_tree path) (buildpacks self)))
    = Some bp /\
    builds evs = [(bp, output_image_spec self)].
Proof.
  intros Hbuild Hdef Hne Hcat Hfetch path.
  set (P := fun e : event => is_build e = false).
  rewrite start_split. unfold start_upstream.
  set (stage := if String.eqb (repo_type self) "local" then _ else _).
  assert (exists s1 e1, stage s = (Ret path, s1) /\ trace s1 = trace s ++ e1 /\ Forall P e1)
    as (s1 & e1 & Hstage & Ht1 & Hp1).
  { subst stage path. destruct (String.eqb (repo_type self) "local").
    - exists s, []. by rewrite app_nil_r.
    - specialize (Hfetch eq_refl).
      destruct (emits_fetch_of P self (repo self) (ref self)
                  (path_join (git_workdir self) uuid4)
                  ltac:(done) ltac:(done) s) as (e1 & Ht & Hp).
      unfold bind. destruct (fetch _ _ _ _ s) as [o sf]. cbn [fst snd] in *. subst o.
      by exists sf, e1. }
  set (s2 := State (next_oid s1) (ticks s1) (probes s1) (inspections s1) path
                   (trace s1 ++ [EvChdir path])).
  destruct (select_spec self s2 Hdef Hcat)
    as (dflt & s0 & picked & bp & s3 & e3 & Hcomp & Hsel & Ht3 & _ & _ & _ & Hpick & _).
  assert (Hp3 : Forall P e3).
  { destruct (emits_select_of P self ltac:(done) ltac:(done) ltac:(done) s2)
      as (e3' & Ht3' & Hp3). rewrite Hsel in Ht3'. cbn [snd] in Ht3'.
    rewrite Ht3 in Ht3'. by apply app_inv_head in Ht3'; subst e3'. }
  assert (exists b, bp = Some b) as [b ->].
  { destruct bp as [b|]; [by exists b|]. exfalso.
    unfold select in Hsel. rewrite (bind_ret _ _ _ _ _ Hcomp) in Hsel.
    eapply (select_loop_binds self _ Hcat); [exact Hsel|by right|done]. }
  set (s5 := logged s3 [EvRender picked;
                        EvLog DEBUG (MsgStr (render (val picked))) "building"]).
  set (s6 := logged s5 [EvLog INFO (MsgStr ("Using " ++ name (val b) ++ " builder" ++ nl))
                              "building";
                        EvBuild picked (output_image_spec self)]).
  assert (exists rest,
            trace (bind (bind stage (fun checkout_path =>
                     chdir checkout_path;;
                     do selected <- select self;
                     do description <- call_render selected.1;
                     log DEBUG (MsgStr description) "building";;
                     (if build self then build_stage self selected.1 selected.2 else ret tt);;
                     ret checkout_path))
                   (start_downstream fuel self) s).2 = trace s6 ++ rest /\
            Forall P rest) as (rest & Htr & Hrest).
  { rewrite bind_assoc, (bind_ret _ _ _ _ _ Hstage).
    rewrite bind_assoc, (bind_ret (chdir path) _ s1 tt s2 eq_refl).
    rewrite bind_assoc, (bind_ret _ _ _ _ _ Hsel). cbn [fst snd].
    rewrite bind_assoc,
      (bind_ret (call_render picked) _ s3 (render (val picked))
                (logged s3 [EvRender picked]) eq_refl).
    rewrite bind_assoc,
      (bind_ret (log DEBUG (MsgStr (render (val picked))) "building") _
                (logged s3 [EvRender picked]) tt s5
                ltac:(by unfold log, emit; rewrite logged_logged)).
    rewrite Hbuild, bind_assoc, build_stage_bind. fold s6.
    apply emits_bind; [by apply emits_build_loop_of|]. intros _.
    apply emits_bind_ret, emits_start_downstream_no_build. }
  exists (e1 ++ [EvChdir path] ++ e3
          ++ [EvRender picked; EvLog DEBUG (MsgStr (render (val picked))) "building";
              EvLog INFO (MsgStr ("Using " ++ name (val b) ++ " builder" ++ nl)) "building";
              EvBuild picked (output_image_spec self)] ++ rest), (val picked).
  split; [|split; [exact Hpick|]].
  - rewrite Htr. subst s6 s5. cbn [logged trace]. rewrite Ht3. subst s2. cbn [trace].
    rewrite Ht1, <- !app_assoc. reflexivity.
  - rewrite !builds_app, (builds_none e1 Hp1), (builds_none e3 Hp3),
      (builds_none rest Hrest). reflexivity.
Qed.
End StartOutcome.


(** * The properties at concrete inputs *)

Section DemoRuns.
Import Demo.

Example str_of_nat_50 : str_of_nat 50 = "50".
Proof. reflexivity. Qed.

Example fmt_s_none : fmt_s None = "None".
Proof. reflexivity. Qed.

Example path_join_workdir :
  path_join "/tmp" "1b9d6bcd-bbfd-4b2d-9b5d-ab8dfbbd4bed"
  = "/tmp/1b9d6bcd-bbfd-4b2d-9b5d-ab8dfbbd4bed".
Proof. reflexivity. Qed.

Example includes_middle : includes "v1.0" "Failed to checkout reference v1.0 for x." = true.
Proof. reflexivity. Qed.

Example truthy_empty_detail : truthy (JDict []) = false.
Proof. reflexivity. Qed.

(** The shallow clone holds the revision: no unshallow step. *)
Example fetch_recent_revision :
  execs (D := detectors [])
        (trace (fetch (D := detectors []) (W := host [] all_ok steady_clock)
                      remote_app url (Some "v1.0") "/tmp/checkout" init_state).2)
  = [ ([Some "git"; Some "clone"; Some "--depth"; Some "50"; Some url; Some "/tmp/checkout"],
       None);
      ([Some "git"; Some "cat-file"; Some "-t"; Some "v1.0"], Some "/tmp/checkout");
      ([Some "git"; Some "reset"; Some "--hard"; Some "v1.0"], Some "/tmp/checkout") ].
Proof. reflexivity. Qed.

(** The probe fails: one unshallow step, then the reset. *)
Example fetch_old_revision :
  execs (D := detectors [])
        (trace (fetch (D := detectors [])
                      (W := host [] (fun cmd => negb (bool_decide (cmd = contains_command
                                                                           (Some "v0.1"))))
                                 steady_clock)
                      remote_app url (Some "v0.1") "/tmp/checkout" init_state).2)
  = [ ([Some "git"; Some "clone"; Some "--depth"; Some "50"; Some url; Some "/tmp/checkout"],
       None);
      ([Some "git"; Some "cat-file"; Some "-t"; Some "v0.1"], Some "/tmp/checkout");
      ([Some "git"; Some "fetch"; Some "--unshallow"], Some "/tmp/checkout");
      ([Some "git"; Some "reset"; Some "--hard"; Some "v0.1"], Some "/tmp/checkout") ].
Proof. vm_compute. reflexivity. Qed.

(** Without [--ref] the revision is [None]: the clone is made, the call of
    the probe raises [TypeError] and nothing else is run. *)
Example fetch_without_revision :
  let run := fetch (D := detectors []) (W := host [] all_ok steady_clock)
                   remote_app url None "/tmp/checkout" init_state in
  run.1 = Exc (TypeError "expected str, bytes or os.PathLike object, not NoneType") /\
  execs (D := detectors []) (trace run.2)
  = [ ([Some "git"; Some "clone"; Some "--depth"; Some "50"; Some url; Some "/tmp/checkout"],
       None);
      ([Some "git"; Some "cat-file"; Some "-t"; None], Some "/tmp/checkout") ].
Proof. vm_compute. split; reflexivity. Qed.

(** A tree with only [requirements.txt] is built with the chain
    [BaseImage, PythonBuildPack]. *)
Example requirements_only_picks_python :
  (fun r => val (D := detectors []) r.1) <$>
    (match (select (D := detectors []) (W := host ["requirements.txt"] all_ok steady_clock)
                   (app "local" "./notebooks" None false false false []) init_state).1 with
     | Ret r => Some r
     | _ => None
     end)
  = Some [BaseImage; PythonBuildPack].
Proof. vm_compute. reflexivity. Qed.

(** C2, as stated, fails: a build record with both a ['stream'] and an
    ['error'] key is logged as a stream line; the loop goes on to the next
    record and returns instead of exiting with code 1. *)
Lemma build_error_with_stream_goes_on :
  has_key "error" both_keys = true /\
  let run := build_loop (D := detectors []) [both_keys; built] init_state in
  run.1 = Ret tt /\
  consumed (D := detectors []) (trace run.2) = [both_keys; built].
Proof. vm_compute. repeat split. Qed.

(** C2 (as amended) applies: after a stream record, an error record stops
    the build before the record that follows it. *)
Lemma build_error_halts_witness :
  exists s' evs,
    build_loop (D := detectors []) ([step] ++ failure :: [built]) init_state
    = (Exc (SystemExit 1), s') /\
    trace s' = trace init_state ++ evs /\
    consumed evs = [step] ++ [failure].
Proof.
  apply (build_error_halts (D := detectors []) [step] failure [built] init_state).
  - repeat constructor.
  - reflexivity.
  - reflexivity.
Defined.

(** C8, as stated, fails: when the clone fails the message names the
    source location and not the revision. *)
Lemma clone_failure_message_lacks_revision :
  (fetch (D := detectors []) (W := host [] all_fail steady_clock)
         remote_app url (Some "v1.0") "/tmp/checkout" init_state).1
  = Exc (RuntimeError "Failed to clone https://github.com/you/your-repo.") /\
  includes "v1.0" "Failed to clone https://github.com/you/your-repo." = false.
Proof. vm_compute. split; reflexivity. Qed.

(** C8 (as amended) applies to the failed clone. *)
Lemma fetch_failure_is_fatal_witness :
  let run := fetch (D := detectors []) (W := host [] all_fail steady_clock)
                   remote_app url (Some "v1.0") "/tmp/checkout" init_state in
  exists msg,
    run.1 = Exc (RuntimeError msg) /\
    includes url msg = true.
Proof.
  cbv zeta.
  destruct (fetch_failure_is_fatal (D := detectors []) (W := host [] all_fail steady_clock)
              remote_app url (Some "v1.0") "/tmp/checkout" init_state
              (fetch (D := detectors []) (W := host [] all_fail steady_clock)
                     remote_app url (Some "v1.0") "/tmp/checkout" init_state).1
              (fetch (D := detectors []) (W := host [] all_fail steady_clock)
                     remote_app url (Some "v1.0") "/tmp/checkout" init_state).2
              (clone_command (Some 50%nat) url "/tmp/checkout") None)
    as (msg & Hr & _ & _ & Hurl & _).
  - apply surjective_pairing.
  - vm_compute. apply list_elem_of_here.
  - discriminate.
  - reflexivity.
  - exists msg. split; [exact Hr|exact Hurl].
Defined.

(** C7, as stated, fails: with [--push], the checkout is removed before
    the image is pushed. *)
Lemma checkout_removed_before_push :
  let run := main (D := detectors [step; built]) (W := host [] all_ok steady_clock)
                  (K := docker [pushing] quiet ([], None) (Attrs "exited" 0))
                  0 remote_app args in
  run.1 = Ret tt /\
  exists i j : nat,
    trace run.2 !! i = Some (EvRmtree "/tmp/1b9d6bcd-bbfd-4b2d-9b5d-ab8dfbbd4bed") /\
    trace run.2 !! j = Some (EvPush "r2d-demo") /\
    (i < j)%nat.
Proof.
  cbv zeta. split; [vm_compute; reflexivity|].
  exists 53%nat, 55%nat.
  split; [vm_compute; reflexivity|]. split; [vm_compute; reflexivity|lia].
Qed.

(** C4 at its failing input: the log stream breaks while the container is
    still running.  The container is killed and removed, and the process
    exits with the code of the report taken before the kill, 0, while the
    engine's final state of the container has exit code 137. *)
Lemma killed_container_exit_code_is_stale :
  let run := run_image (D := detectors []) (W := host [] all_ok steady_clock)
                       (K := docker [] still_running broken_stream (Attrs "exited" 137))
                       5 remote_app init_state in
  run.1 = Exc (SystemExit 0) /\
  last (trace run.2) = Some EvRemove /\
  EvKill ∈ trace run.2 /\
  engine_state (K := docker [] still_running broken_stream (Attrs "exited" 137))
               None (trace run.2)
  = Some (Attrs "exited" 137).
Proof.
  cbv zeta. split; [vm_compute; reflexivity|]. split; [vm_compute; reflexivity|].
  split; [|vm_compute; reflexivity].
  apply list_elem_of_lookup. exists 9%nat. vm_compute. reflexivity.
Qed.

(** A container that has exited with code 3 makes the process exit with
    code 3, and is removed. *)
Example exit_code_3_is_propagated :
  let run := run_image (D := detectors []) (W := host [] all_ok steady_clock)
                       (K := docker [] exited_3 ([], None) (Attrs "exited" 137))
                       5 remote_app init_state in
  run.1 = Exc (SystemExit 3) /\ last (trace run.2) = Some EvRemove.
Proof. vm_compute. split; reflexivity. Qed.

(** C1 applies to the catalog of [app.py]: a tree with [environment.yml]
    and [REQUIRE] picks the conda and Julia chain, ahead of the conda-only
    chain. *)
Lemma selection_is_first_match_witness :
  exists picked bp s',
    select (D := detectors []) (W := host ["environment.yml"; "REQUIRE"] all_ok steady_clock)
           (app "local" "./notebooks" None false false false []) init_state
    = (Ret (picked, bp), s') /\
    val picked = [BaseImage; CondaBuildPack; JuliaBuildPack].
Proof.
  destruct (selection_is_first_match
              (D := detectors [])
              (W := host ["environment.yml"; "REQUIRE"] all_ok steady_clock)
              (app "local" "./notebooks" None false false false []) init_state)
    as (dflt & s0 & picked & bp & s' & evs & _ & Hsel & _ & _ & _ & _ & Hval & _).
  - discriminate.
  - repeat constructor; discriminate.
  - exists picked, bp, s'. split; [exact Hsel|].
    vm_compute in Hval. by injection Hval.
Defined.

Lemma burst_clock_monotone (i j : nat) :
  (i <= j)%nat -> (burst_clock i <= burst_clock j)%Q.
Proof.
  intros Hij. destruct i, j; unfold burst_clock, Qle; cbn [Qnum Qden]; lia.
Qed.

(** C6 applies to a burst: 120 records arrive within a fortieth of a
    second, two seconds after the push began; the snapshot is emitted
    once. *)
Lemma push_progress_is_throttled_witness :
  let run := push_image (D := detectors []) (W := host [] all_ok burst_clock)
                        (K := docker (replicate 120 pushing) quiet ([], None)
                                     (Attrs "exited" 0))
                        remote_app init_state in
  (forall a, (length (in_window a (emission_times (D := detectors []) None (trace run.2)))
              <= 1)%nat) /\
  length (emission_times (D := detectors []) None (trace run.2)) = 1%nat.
Proof.
  cbv zeta.
  destruct (push_progress_is_throttled
              (D := detectors []) (W := host [] all_ok burst_clock)
              (K := docker (replicate 120 pushing) quiet ([], None) (Attrs "exited" 0))
              remote_app init_state burst_clock_monotone)
    as (r & s' & evs & Hrun & Htr & _ & _ & Hwin).
  rewrite Hrun. cbn [snd]. rewrite Htr. split; [exact Hwin|].
  rewrite <- Htr. replace s' with
    (push_image (D := detectors []) (W := host [] all_ok burst_clock)
                (K := docker (replicate 120 pushing) quiet ([], None) (Attrs "exited" 0))
                remote_app init_state).2 by (by rewrite Hrun).
  vm_compute. reflexivity.
Defined.
End DemoRuns.


(** * The properties of the stages, on the examples *)

Section StageRuns.
Import Demo.

(** A build stream without a halting record is consumed to its end. *)
Lemma build_without_error_returns_witness :
  exists s' evs,
    build_loop (D := detectors []) [step; both_keys; built] init_state = (Ret tt, s') /\
    trace s' = trace init_state ++ evs /\
    consumed evs = [step; both_keys; built] /\
    length (logs evs) = length [step; both_keys; built] /\
    Forall (fun entry => entry.1.1 = INFO /\ entry.2 = "building") (logs evs).
Proof.
  apply (build_without_error_returns (D := detectors []) [step; both_keys; built] init_state).
  repeat constructor.
Defined.

(** An empty catalog entry after [(DockerBuildPack,)], in a tree without a
    [Dockerfile]. *)
Lemma empty_chain_aborts_selection_witness :
  exists s' evs,
    select_loop (D := detectors []) (W := host [] all_ok steady_clock)
                ([[DockerBuildPack]] ++ [] :: [[BaseImage]])
                (app "local" "./notebooks" None false false false [])
                (Obj (D := detectors []) 0 [BaseImage]) None init_state
    = (Exc IndexError, s') /\
    trace s' = trace init_state ++ evs /\
    instantiated evs = concat [[DockerBuildPack]].
Proof.
  apply (empty_chain_aborts_selection
           (D := detectors []) (W := host [] all_ok steady_clock)
           (app "local" "./notebooks" None false false false [])
           [[DockerBuildPack]] [[BaseImage]]
           (Obj (D := detectors []) 0 [BaseImage]) None init_state).
  - repeat constructor; discriminate.
  - repeat constructor.
Defined.

(** In an empty tree no entry of the catalog of [app.py] matches: the
    default is built, under the name of the last entry. *)
Lemma build_log_names_last_entry_witness :
  exists dflt b s',
    select (D := detectors []) (W := host [] all_ok steady_clock)
           (app "local" "./notebooks" None false false false []) init_state
    = (Ret (dflt, Some b), s') /\
    Some (val dflt) = Some [BaseImage; PythonBuildPack] /\
    Some (val b) = Some [BaseImage; PythonBuildPack].
Proof.
  destruct (build_log_names_last_entry
              (D := detectors []) (W := host [] all_ok steady_clock)
              (app "local" "./notebooks" None false false false [])
              [BaseImage; PythonBuildPack] init_state)
    as (dflt & b & s' & Hsel & Hdflt & Hb & _).
  - discriminate.
  - repeat constructor; discriminate.
  - repeat constructor.
  - reflexivity.
  - exists dflt, b, s'. split; [exact Hsel|]. split; [by rewrite <- Hdflt|by rewrite <- Hb].
Defined.

(** Two progress records of one layer. *)
Lemma push_without_error_returns_witness :
  exists s' evs,
    push_loop (D := detectors []) (W := host [] all_ok steady_clock)
              [pushing; pushing] [] 0 init_state = (Ret tt, s') /\
    trace s' = trace init_state ++ evs /\
    pushed evs = [pushing; pushing] /\
    logs evs = [].
Proof.
  apply (push_without_error_returns
           (D := detectors []) (W := host [] all_ok steady_clock)
           [pushing; pushing] [] 0 init_state).
  repeat constructor.
Defined.

(** With a clock that ticks once a second, a snapshot follows every second
    record: both list the two layers of the stream, each once. *)
Example snapshots_of_two_layers :
  (fun shot : list record * list (json * json) => (length shot.1, shot.2.*1)) <$>
    snapshots (D := detectors []) []
      (trace (push_image (D := detectors []) (W := host [] all_ok steady_clock)
                         (K := docker [pushing; waiting; pushing; waiting] quiet ([], None)
                                      (Attrs "exited" 0))
                         remote_app init_state).2)
  = [ (2%nat, [JStr "5f70bf18a086"; JStr "a3ed95caeb02"]);
      (4%nat, [JStr "5f70bf18a086"; JStr "a3ed95caeb02"]) ].
Proof. vm_compute. reflexivity. Qed.


(** In that run the snapshot comes between the two records. *)
Example snapshot_precedes_push_error :
  omap (fun e => match e with
                 | EvPushRecord _ => Some "record"
                 | EvProgress _ => Some "snapshot"
                 | EvLog ERROR _ _ => Some "error"
                 | _ => None
                 end)
       (trace (push_loop (D := detectors []) (W := host [] all_ok slow_clock)
                         ([pushing] ++ denied :: [pushing]) [] 0 init_state).2)
  = ["record"; "snapshot"; "record"; "error"].
Proof. vm_compute. reflexivity. Qed.

(** A container that is created at the first inspection and running at the
    second one is polled once; it has exited with code 3 when its log
    stream ends. *)
Lemma run_image_exits_after_poll_witness :
  exists s' evs,
    run_image (D := detectors []) (W := host [] all_ok steady_clock)
              (K := docker [] exited_3 ([], None) (Attrs "exited" 137))
              5 (app "local" "./notebooks" None false false true []) init_state
    = (Exc (SystemExit 3), s') /\
    trace s' = trace init_state ++ evs /\
    count_of is_sleep evs = 1%nat /\
    count_of is_remove evs = 1%nat /\
    count_of is_kill evs = 0%nat /\
    last evs = Some EvRemove.
Proof.
  apply (run_image_exits_after_poll
           (D := detectors []) (W := host [] all_ok steady_clock)
           (K := docker [] exited_3 ([], None) (Attrs "exited" 137))
           5 (app "local" "./notebooks" None false false true []) init_state 1).
  - lia.
  - intros i Hi. destruct i; [reflexivity|lia].
  - discriminate.
Defined.

(** [./notebooks] exists on the host. *)
Lemma local_source_is_used_in_place_witness :
  Forall (in_place "./notebooks")
         (trace (main (D := detectors [step; built]) (W := host [] all_ok steady_clock)
                      (K := docker [pushing] quiet ([], None) (Attrs "exited" 0))
                      0 remote_app local_args).2).
Proof.
  apply (local_source_is_used_in_place
           (D := detectors [step; built]) (W := host [] all_ok steady_clock)
           (K := docker [pushing] quiet ([], None) (Attrs "exited" 0))
           0 remote_app local_args).
  reflexivity.
Defined.

(** [--no-build] with [--push] and without [--no-run]. *)
Lemma no_build_is_dry_witness :
  Forall dry
         (trace (main (D := detectors [step; built]) (W := host [] all_ok steady_clock)
                      (K := docker [pushing] quiet ([], None) (Attrs "exited" 0))
                      0 remote_app no_build_args).2).
Proof.
  apply (no_build_is_dry
           (D := detectors [step; built]) (W := host [] all_ok steady_clock)
           (K := docker [pushing] quiet ([], None) (Attrs "exited" 0))
           0 remote_app no_build_args).
  reflexivity.
Defined.

(** A remote source, built and pushed, not run: the checkout is removed
    once. *)
Lemma start_returns_without_run_witness :
  let run := start (D := detectors [step; built]) (W := host [] all_ok steady_clock)
                   (K := docker [pushing] quiet ([], None) (Attrs "exited" 0))
                   0 remote_app init_state in
  run.1 = Ret tt /\
  exists evs, trace run.2 = trace init_state ++ evs /\ count_of is_rmtree evs = 1%nat.
Proof.
  cbv zeta. split; [vm_compute; reflexivity|].
  apply (start_returns_without_run
           (D := detectors [step; built]) (W := host [] all_ok steady_clock)
           (K := docker [pushing] quiet ([], None) (Attrs "exited" 0))
           0 remote_app init_state).
  etransitivity; [apply surjective_pairing|].
  f_equal.
Defined.

(** The build of a remote source fails at its second record, with cleaning
    and [--push] on. *)
Lemma failed_build_leaves_checkout_witness :
  let run := start (D := detectors [step; failure; built])
                   (W := host [] all_ok steady_clock)
                   (K := docker [pushing] quiet ([], None) (Attrs "exited" 0))
                   0 remote_app init_state in
  run.1 = Exc (SystemExit 1) /\ Forall upstream (trace run.2).
Proof.
  cbv zeta.
  apply (failed_build_leaves_checkout
           (D := detectors [step; failure; built]) (W := host [] all_ok steady_clock)
           (K := docker [pushing] quiet ([], None) (Attrs "exited" 0))
           0 remote_app init_state _ failure).
  - symmetry. apply app_nil_l.
  - vm_compute. apply list_elem_of_further, list_elem_of_here.
  - reflexivity.
Defined.

(** A local source and an empty catalog. *)
Lemma empty_catalog_cannot_build_witness :
  exists evs,
    (start (D := detectors [step; built]) (W := host [] all_ok steady_clock)
           (K := docker [] quiet ([], None) (Attrs "exited" 0))
           0 bare_app init_state).1 = Exc (UnboundLocalError "bp") /\
    trace (start (D := detectors [step; built]) (W := host [] all_ok steady_clock)
                 (K := docker [] quiet ([], None) (Attrs "exited" 0))
                 0 bare_app init_state).2 = trace init_state ++ evs /\
    Forall dry evs.
Proof.
  apply (empty_catalog_cannot_build
           (D := detectors [step; built]) (W := host [] all_ok steady_clock)
           (K := docker [] quiet ([], None) (Attrs "exited" 0))
           0 bare_app init_state).
  - reflexivity.
  - reflexivity.
  - discriminate.
  - discriminate.
Defined.

(** A remote source whose checkout holds [environment.yml]: the conda
    chain is built, ahead of the Python chains and of the default. *)
Lemma build_is_of_first_match_in_checkout_witness :
  exists evs bp,
    trace (start (D := detectors [step; built])
                 (W := host ["environment.yml"] all_ok steady_clock)
                 (K := docker [pushing] quiet ([], None) (Attrs "exited" 0))
                 0 remote_app init_state).2 = trace init_state ++ evs /\
    Some [BaseImage; CondaBuildPack] = Some bp /\
    builds evs = [(bp, "r2d-demo")].
Proof.
  destruct (build_is_of_first_match_in_checkout
              (D := detectors [step; built])
              (W := host ["environment.yml"] all_ok steady_clock)
              (K := docker [pushing] quiet ([], None) (Attrs "exited" 0))
              0 remote_app init_state)
    as (evs & bp & Htr & Hbp & Hbuilds).
  - reflexivity.
  - discriminate.
  - discriminate.
  - repeat constructor; discriminate.
  - intros _. vm_compute. reflexivity.
  - exists evs, bp. split; [exact Htr|]. split; [|exact Hbuilds].
    vm_compute in Hbp. exact Hbp.
Defined.
End StageRuns.
